(** * MemoryClient (Mem0 Deno SDK): request construction, validation and
      error normalisation

    A shallow embedding of [client.ts] (class [MemoryClient]) and [error.ts]
    (class [APIError]).  JavaScript values are an inductive type, objects are
    association lists in insertion order, and every [async] method is a term
    of a small program monad whose only effects are the ones the class has:
    reading and assigning the private fields, throwing, and awaiting
    [#fetchWithErrorHandling].  The network is a function giving the outcome
    of the n-th call of the global [fetch]. *)

From Stdlib Require Import String Ascii ZArith List Bool Lia DecimalString.
Import ListNotations.
Local Open Scope string_scope.
Local Open Scope Z_scope.

(* ------------------------------------------------------------------ *)
(** ** JavaScript values *)

Module Js.

(** Numbers are modelled as integers (the client only ever handles page
    numbers, status codes and identifiers); [NaN], fractions and numbers
    outside the range where [String(n)] prints plain decimal digits are not
    represented. *)
#[warnings="-register-all"] Inductive Value : Type :=
| VUndefined
| VNull
| VBool (b : bool)
| VNum (z : Z)
| VStr (s : string)
| VArr (items : list Value)
| VObj (props : list (string * Value)).

(** An object is the list of its own enumerable string-keyed properties in
    insertion order; keys are property names of the SDK's option types, none
    of which is an array index. *)
Definition Obj (V : Type) : Type := list (string * V).

Section Objects.
Context {V : Type}.

Fixpoint obj_find (k : string) (o : Obj V) : option V :=
  match o with
  | [] => None
  | (k', v) :: rest => if String.eqb k k' then Some v else obj_find k rest
  end.

Definition obj_has (k : string) (o : Obj V) : bool :=
  match obj_find k o with Some _ => true | None => false end.

(** [o[k] = v]: an existing property keeps its position. *)
Fixpoint obj_set (k : string) (v : V) (o : Obj V) : Obj V :=
  match o with
  | [] => [(k, v)]
  | (k', v') :: rest =>
      if String.eqb k k' then (k', v) :: rest else (k', v') :: obj_set k v rest
  end.

(** [delete o[k]]. *)
Definition obj_delete (k : string) (o : Obj V) : Obj V :=
  filter (fun kv => negb (String.eqb k (fst kv))) o.

(** [{ ...a, ...b }]: the properties of [b] are assigned onto a copy of [a]. *)
Definition obj_spread (a b : Obj V) : Obj V :=
  fold_left (fun acc kv => obj_set (fst kv) (snd kv) acc) b a.

(** The rest element of a destructuring pattern: [{ k1, ..., kn, ...rest }]. *)
Definition obj_rest (ks : list string) (o : Obj V) : Obj V :=
  fold_left (fun acc k => obj_delete k acc) ks o.
End Objects.

(** [o.k] on an object; a missing property reads as [undefined]. *)
Definition obj_get (k : string) (o : Obj Value) : Value :=
  match obj_find k o with Some v => v | None => VUndefined end.

(** [v.k] on a value that is neither [null] nor [undefined], for the property
    names the client reads ([results], [type], [name], [status], [message],
    [org_id], [project_id]): primitives and arrays have no such property. *)
Definition prop (k : string) (v : Value) : Value :=
  match v with
  | VObj o => obj_get k o
  | _ => VUndefined
  end.

Definition is_nullish (v : Value) : bool :=
  match v with VUndefined | VNull => true | _ => false end.

Definition is_undefined (v : Value) : bool :=
  match v with VUndefined => true | _ => false end.

Definition is_null (v : Value) : bool :=
  match v with VNull => true | _ => false end.

(** ToBoolean. *)
Definition truthy (v : Value) : bool :=
  match v with
  | VUndefined | VNull => false
  | VBool b => b
  | VNum z => negb (z =? 0)
  | VStr s => negb (String.eqb s "")
  | VArr _ | VObj _ => true
  end.

(** [a || b], [a ?? b]. *)
Definition js_or (a b : Value) : Value := if truthy a then a else b.
Definition js_coalesce (a b : Value) : Value := if is_nullish a then b else a.

(** [v === "s"]. *)
Definition is_string (s : string) (v : Value) : bool :=
  match v with VStr s' => String.eqb s' s | _ => false end.

(** [typeof v === "object"]. *)
Definition typeof_object (v : Value) : bool :=
  match v with VNull | VArr _ | VObj _ => true | _ => false end.

Definition string_of_Z (z : Z) : string := NilZero.string_of_int (Z.to_int z).

Fixpoint join (sep : string) (l : list string) : string :=
  match l with
  | [] => ""
  | [s] => s
  | s :: rest => s ++ sep ++ join sep rest
  end.

(** ToString, as applied by [String(v)] and by template literals. *)
Fixpoint ToString (v : Value) : string :=
  match v with
  | VUndefined => "undefined"
  | VNull => "null"
  | VBool true => "true"
  | VBool false => "false"
  | VNum z => string_of_Z z
  | VStr s => s
  | VArr items =>
      join "," (map (fun x => if is_nullish x then "" else ToString x) items)
  | VObj _ => "[object Object]"
  end.

(** *** JSON.stringify *)

Definition hex_digit (upper : bool) (n : nat) : ascii :=
  if Nat.ltb n 10 then ascii_of_nat (48 + n)
  else ascii_of_nat ((if upper then 55 else 87) + n).

Definition hex2 (upper : bool) (c : ascii) : string :=
  let n := nat_of_ascii c in
  String (hex_digit upper (Nat.div n 16))
    (String (hex_digit upper (Nat.modulo n 16)) EmptyString).

Definition dquote : string := String (ascii_of_nat 34) EmptyString.
Definition backslash : string := String (ascii_of_nat 92) EmptyString.

Definition json_escape_char (c : ascii) : string :=
  let n := nat_of_ascii c in
  if Nat.eqb n 34 then backslash ++ dquote
  else if Nat.eqb n 92 then backslash ++ backslash
  else if Nat.eqb n 8 then backslash ++ "b"
  else if Nat.eqb n 9 then backslash ++ "t"
  else if Nat.eqb n 10 then backslash ++ "n"
  else if Nat.eqb n 12 then backslash ++ "f"
  else if Nat.eqb n 13 then backslash ++ "r"
  else if Nat.ltb n 32 then backslash ++ "u00" ++ hex2 false c
  else String c EmptyString.

Fixpoint json_escape (s : string) : string :=
  match s with
  | EmptyString => ""
  | String c rest => json_escape_char c ++ json_escape rest
  end.

Definition json_quote (s : string) : string := dquote ++ json_escape s ++ dquote.

(** Serialisation of a value other than a top-level [undefined]: array holes
    print as [null], properties whose value is [undefined] are left out. *)
Fixpoint json_ser (v : Value) : string :=
  match v with
  | VUndefined | VNull => "null"
  | VBool true => "true"
  | VBool false => "false"
  | VNum z => string_of_Z z
  | VStr s => json_quote s
  | VArr items => "[" ++ join "," (map json_ser items) ++ "]"
  | VObj props =>
      "{" ++ join ","
        ((fix members (ps : list (string * Value)) : list string :=
            match ps with
            | [] => []
            | (k, x) :: rest =>
                if is_undefined x then members rest
                else (json_quote k ++ ":" ++ json_ser x) :: members rest
            end) props) ++ "}"
  end.

Definition JSON_stringify (v : Value) : option string :=
  match v with
  | VUndefined => None
  | _ => Some (json_ser v)
  end.

(** *** URLSearchParams *)

Definition url_safe (c : ascii) : bool :=
  let n := nat_of_ascii c in
  (Nat.leb 48 n && Nat.leb n 57) || (Nat.leb 65 n && Nat.leb n 90)
  || (Nat.leb 97 n && Nat.leb n 122)
  || Nat.eqb n 42 || Nat.eqb n 45 || Nat.eqb n 46 || Nat.eqb n 95.

Definition form_encode_char (c : ascii) : string :=
  if url_safe c then String c EmptyString
  else if Nat.eqb (nat_of_ascii c) 32 then "+"
  else "%" ++ hex2 true c.

Fixpoint form_encode (s : string) : string :=
  match s with
  | EmptyString => ""
  | String c rest => form_encode_char c ++ form_encode rest
  end.

(** [String(new URLSearchParams(pairs))]: the
    application/x-www-form-urlencoded serialisation of the pairs. *)
Definition URLSearchParams_toString (pairs : list (string * string)) : string :=
  join "&" (map (fun kv => form_encode (fst kv) ++ "=" ++ form_encode (snd kv)) pairs).

End Js.
Import Js.

(* ------------------------------------------------------------------ *)
(** ** Errors (error.ts) *)

(** What a [throw] or a rejected promise carries. *)
Inductive Exn : Type :=
| JsError (name message : string)        (* an [Error] that is not an [APIError] *)
| APIError (status : Z) (message : string) (* [class APIError extends Error] *)
| Thrown (v : Value).                     (* anything else *)

(** [new Error(message)], [new TypeError(message)]. *)
Definition new_Error (message : string) : Exn := JsError "Error" message.
Definition new_TypeError (message : string) : Exn := JsError "TypeError" message.

(** [new APIError(status, message)]: the constructor passes
    [`API request failed with status ${status}: ${message}`] to [super]. *)
Definition new_APIError (status : Z) (message : Value) : Exn :=
  APIError status
    ("API request failed with status " ++ ToString (VNum status) ++ ": "
       ++ ToString message).

(** [error instanceof Error && error.name === "AbortError"]. *)
Definition is_AbortError (e : Exn) : bool :=
  match e with
  | JsError name _ => String.eqb name "AbortError"
  | APIError _ _ => false
  | Thrown _ => false
  end.

(** A settled promise. *)
Inductive Settled (A : Type) : Type :=
| Fulfilled (a : A)
| Rejected (e : Exn).
Arguments Fulfilled {A} a.
Arguments Rejected {A} e.

(* ------------------------------------------------------------------ *)
(** ** The client's state and the network *)

(** The private fields of [MemoryClient]. *)
Record Client : Type := mkClient {
  apiKey : string;
  host : string;
  organizationName : Value;   (* string | null *)
  projectName : Value;        (* string | null *)
  organizationId : Value;     (* string | number | null *)
  projectId : Value;          (* string | number | null *)
  headers : Obj string;
  timeout : Z
}.

Definition set_organizationId (v : Value) (c : Client) : Client :=
  mkClient (apiKey c) (host c) (organizationName c) (projectName c)
           v (projectId c) (headers c) (timeout c).

Definition set_projectId (v : Value) (c : Client) : Client :=
  mkClient (apiKey c) (host c) (organizationName c) (projectName c)
           (organizationId c) v (headers c) (timeout c).

(** The second argument of [#fetchWithErrorHandling]. *)
Record RequestInit : Type := mkInit {
  init_method : string;
  init_body : option string;
  init_headers : Obj string
}.

Definition init (method : string) (body : option string) : RequestInit :=
  mkInit method body [].

(** What the global [fetch] is called with. *)
Record Request : Type := mkRequest {
  req_url : string;
  req_method : string;
  req_headers : Obj string;
  req_body : option string
}.

(** A [Response]: [text] is what [response.text()] resolves to and [json]
    is how [response.json()] settles. *)
Record Response : Type := mkResponse {
  status : Z;
  statusText : string;
  text : string;
  json : Settled Value
}.

(** [response.ok]. *)
Definition ok (r : Response) : bool := (200 <=? status r) && (status r <=? 299).

(** The network: how the n-th call of [fetch] (counting from 0) settles. *)
Definition Network : Type := nat -> Settled Response.

(** The calls of [fetch] made so far, oldest first, each with its outcome. *)
Definition Log : Type := list (Request * Settled Response).

Definition requests (log : Log) : list Request := map fst log.

Section Execution.
Variable net : Network.

(** [#fetchWithErrorHandling(url, options)]. *)
Definition fetchWithErrorHandling (this : Client) (log : Log)
    (url : string) (options : RequestInit) : Settled Value * Log :=
  let request :=
    mkRequest url (init_method options)
      (obj_spread (headers this) (init_headers options)) (init_body options) in
  let outcome := net (length log) in
  let log' := (log ++ [(request, outcome)])%list in
  match outcome with
  | Rejected error =>
      if is_AbortError error then
        (Rejected (new_Error ("Request timeout after "
                     ++ ToString (VNum (timeout this)) ++ "ms for " ++ url)), log')
      else (Rejected error, log')
  | Fulfilled response =>
      if negb (ok response) then
        let errorText := text response in
        (Rejected (new_APIError (status response)
                     (js_or (VStr errorText) (VStr (statusText response)))), log')
      else (json response, log')
  end.
End Execution.

(* ------------------------------------------------------------------ *)
(** ** Method bodies as programs *)

(** The body of an [async] method: it returns, throws, reads [this], assigns
    private fields of [this], or awaits [#fetchWithErrorHandling] and goes on
    with the parsed body.  No method of the class has a [try] block around
    such an [await], so a rejection ends the method. *)
Inductive Prog (A : Type) : Type :=
| Ret (a : A)
| Throw (e : Exn)
| This (k : Client -> Prog A)
| Assign (f : Client -> Client) (k : Prog A)
| Await (url : string) (options : RequestInit) (k : Value -> Prog A).
Arguments Ret {A} a.
Arguments Throw {A} e.
Arguments This {A} k.
Arguments Assign {A} f k.
Arguments Await {A} url options k.

Fixpoint bind {A B : Type} (p : Prog A) (f : A -> Prog B) : Prog B :=
  match p with
  | Ret a => f a
  | Throw e => Throw e
  | This k => This (fun this => bind (k this) f)
  | Assign g k => Assign g (bind k f)
  | Await url options k => Await url options (fun v => bind (k v) f)
  end.

Declare Scope prog_scope.
Delimit Scope prog_scope with prog.
Notation "x <- p ;; q" := (bind p (fun x => q))
  (at level 61, p at next level, right associativity) : prog_scope.
Notation "p ;;; q" := (bind p (fun _ => q))
  (at level 61, right associativity) : prog_scope.
Local Open Scope prog_scope.

(** Running a method body on a client, over a network and a log of the
    calls made before it: how the returned promise settles, the client's
    fields afterwards and the extended log. *)
Fixpoint run {A : Type} (net : Network) (p : Prog A) (this : Client) (log : Log)
  : Settled A * Client * Log :=
  match p with
  | Ret a => (Fulfilled a, this, log)
  | Throw e => (Rejected e, this, log)
  | This k => run net (k this) this log
  | Assign f k => run net k (f this) log
  | Await url options k =>
      match fetchWithErrorHandling net this log url options with
      | (Fulfilled v, log') => run net (k v) this log'
      | (Rejected e, log') => (Rejected e, this, log')
      end
  end.

Definition outcome_of {A : Type} (r : Settled A * Client * Log) : Settled A := fst (fst r).
Definition client_of {A : Type} (r : Settled A * Client * Log) : Client := snd (fst r).
Definition log_of {A : Type} (r : Settled A * Client * Log) : Log := snd r.

(* ------------------------------------------------------------------ *)
(** ** class MemoryClient (client.ts) *)

Module MemoryClient.

(** [#preparePayload(messages, options)]: [{ messages, ...options }]. *)
Definition preparePayload (messages : list Value) (options : Obj Value) : Obj Value :=
  obj_spread [("messages", VArr messages)] options.

(** [#prepareParams(options)]. *)
Definition prepareParams (options : Obj Value) : Obj string :=
  fold_left
    (fun params kv =>
       if negb (is_null (snd kv)) && negb (is_undefined (snd kv))
       then obj_set (fst kv) (ToString (snd kv)) params
       else params)
    options [].

(** [#addOrgProjectToOptions(options)]. *)
Definition addOrgProjectToOptions (this : Client) (options : Obj Value) : Obj Value :=
  let result := obj_spread [] options in
  let result :=
    if negb (is_null (organizationName this)) && negb (is_null (projectName this))
    then obj_set "project_name" (projectName this)
           (obj_set "org_name" (organizationName this) result)
    else result in
  if negb (is_null (organizationId this)) && negb (is_null (projectId this))
  then obj_delete "project_name"
         (obj_delete "org_name"
            (obj_set "project_id" (projectId this)
               (obj_set "org_id" (organizationId this) result)))
  else result.

Definition ping : Prog Value :=
  This (fun this =>
  Await (host this ++ "/v1/ping/") (init "GET" None) (fun response =>
  if negb (truthy response) || negb (typeof_object response) then
    Throw (new_APIError 500 (VStr "Invalid response format from ping endpoint"))
  else if negb (is_string "ok" (prop "status" response)) then
    Throw (new_APIError 401
             (js_coalesce (prop "message" response) (VStr "API Key is invalid")))
  else
    This (fun this =>
      if truthy (prop "org_id" response) && negb (truthy (organizationId this))
      then Assign (set_organizationId (prop "org_id" response)) (Ret tt)
      else Ret tt) ;;;
    This (fun this =>
      if truthy (prop "project_id" response) && negb (truthy (projectId this))
      then Assign (set_projectId (prop "project_id" response)) (Ret tt)
      else Ret tt) ;;;
    Ret VUndefined)).

Definition add (messages : list Value) (options : Obj Value) : Prog Value :=
  This (fun this =>
  let opts := addOrgProjectToOptions this options in
  let opts :=
    if truthy (obj_get "api_version" opts)
    then obj_set "version" (VStr (ToString (obj_get "api_version" opts))) opts
    else opts in
  let payload := preparePayload messages opts in
  Await (host this ++ "/v1/memories/")
        (init "POST" (JSON_stringify (VObj payload))) Ret).

Definition update (memoryId : string) (data : Obj Value) : Prog Value :=
  if is_undefined (obj_get "text" data) && is_undefined (obj_get "metadata" data)
  then Throw (new_Error "Either text or metadata must be provided for update.")
  else
    This (fun this =>
    Await (host this ++ "/v1/memories/" ++ memoryId ++ "/")
          (init "PUT" (JSON_stringify (VObj data))) Ret).

Definition get (memoryId : string) : Prog Value :=
  This (fun this =>
  Await (host this ++ "/v1/memories/" ++ memoryId ++ "/") (init "GET" None) Ret).

(** The [paginationParams] of [getAll]. *)
Definition paginationParams (page page_size : Value) : string :=
  if truthy page && truthy page_size
  then "page=" ++ ToString page ++ "&page_size=" ++ ToString page_size
  else "".

Definition getAll (options : Obj Value) : Prog Value :=
  let api_version := obj_get "api_version" options in
  let page := obj_get "page" options in
  let page_size := obj_get "page_size" options in
  let otherOptions := obj_rest ["api_version"; "page"; "page_size"] options in
  This (fun this =>
  let opts := addOrgProjectToOptions this otherOptions in
  let paginationParams := paginationParams page page_size in
  if is_string "v2" api_version then
    let url :=
      if truthy (VStr paginationParams)
      then host this ++ "/v2/memories/?" ++ paginationParams
      else host this ++ "/v2/memories/" in
    Await url (init "POST" (JSON_stringify (VObj opts))) Ret
  else
    let params := URLSearchParams_toString (prepareParams opts) in
    let url :=
      if truthy (VStr paginationParams)
      then host this ++ "/v1/memories/?" ++ params ++ "&" ++ paginationParams
      else host this ++ "/v1/memories/?" ++ params in
    Await url (init "GET" None) Ret).

Definition search (query : string) (options : Obj Value) : Prog Value :=
  let api_version := obj_get "api_version" options in
  let otherOptions := obj_rest ["api_version"] options in
  This (fun this =>
  let opts := addOrgProjectToOptions this otherOptions in
  let payload := obj_spread [("query", VStr query)] opts in
  let endpoint :=
    if is_string "v2" api_version then "/v2/memories/search/"
    else "/v1/memories/search/" in
  Await (host this ++ endpoint)
        (init "POST" (JSON_stringify (VObj payload))) Ret).

Definition delete (memoryId : string) : Prog Value :=
  This (fun this =>
  Await (host this ++ "/v1/memories/" ++ memoryId ++ "/") (init "DELETE" None) Ret).

Definition deleteAll (options : Obj Value) : Prog Value :=
  This (fun this =>
  let opts := addOrgProjectToOptions this options in
  let params := URLSearchParams_toString (prepareParams opts) in
  Await (host this ++ "/v1/memories/?" ++ params) (init "DELETE" None) Ret).

Definition history (memoryId : string) : Prog Value :=
  This (fun this =>
  Await (host this ++ "/v1/memories/" ++ memoryId ++ "/history/")
        (init "GET" None) Ret).

Definition users : Prog Value :=
  This (fun this =>
  let opts := addOrgProjectToOptions this [] in
  let params := URLSearchParams_toString (prepareParams opts) in
  Await (host this ++ "/v1/entities/?" ++ params) (init "GET" None) Ret).

Definition deleteUser (data : Obj Value) : Prog Value :=
  let entityType := js_coalesce (obj_get "entity_type" data) (VStr "user") in
  This (fun this =>
  Await (host this ++ "/v1/entities/" ++ ToString entityType ++ "/"
           ++ ToString (obj_get "entity_id" data) ++ "/")
        (init "DELETE" None) Ret).

(** An element of [toDelete] in [deleteUsers]: [{ type, name }]. *)
Record Target : Type := mkTarget { target_type : Value; target_name : Value }.

(** [entities.results.map((entity) => ({ type: entity.type, name: entity.name }))]
    on the untyped value that [users()] resolved to. *)
Definition entity_target (entity : Value) : Target :=
  mkTarget (prop "type" entity) (prop "name" entity).

Fixpoint map_entities (results : list Value) : Prog (list Target) :=
  match results with
  | [] => Ret []
  | entity :: rest =>
      if is_nullish entity
      then Throw (new_TypeError "Cannot read properties of null (reading 'type')")
      else
        targets <- map_entities rest ;;
        Ret (entity_target entity :: targets)
  end.

Definition entities_to_delete (entities : Value) : Prog (list Target) :=
  if is_nullish entities
  then Throw (new_TypeError "Cannot read properties of null (reading 'results')")
  else
    match prop "results" entities with
    | VArr results => map_entities results
    | _ => Throw (new_TypeError "entities.results.map is not a function")
    end.

(** The URL of the request that deletes one entity. *)
Definition entity_url (this : Client) (queryParams : string) (entity : Target) : string :=
  host this ++ "/v2/entities/" ++ ToString (target_type entity) ++ "/"
    ++ ToString (target_name entity) ++ "/?" ++ queryParams.

(** [for (const entity of toDelete) { await this.#fetchWithErrorHandling(...) }]. *)
Fixpoint delete_each (queryParams : string) (toDelete : list Target) : Prog unit :=
  match toDelete with
  | [] => Ret tt
  | entity :: rest =>
      This (fun this =>
      Await (entity_url this queryParams entity) (init "DELETE" None)
            (fun _ => delete_each queryParams rest))
  end.

Definition deleteUsers (params : Obj Value) : Prog Value :=
  let user_id := obj_get "user_id" params in
  let agent_id := obj_get "agent_id" params in
  let app_id := obj_get "app_id" params in
  let run_id := obj_get "run_id" params in
  toDelete <-
    (if truthy user_id then Ret [mkTarget (VStr "user") user_id]
     else if truthy agent_id then Ret [mkTarget (VStr "agent") agent_id]
     else if truthy app_id then Ret [mkTarget (VStr "app") app_id]
     else if truthy run_id then Ret [mkTarget (VStr "run") run_id]
     else entities <- users ;; entities_to_delete entities) ;;
  match toDelete with
  | [] => Throw (new_Error "No entities to delete")
  | _ :: _ =>
      This (fun this =>
      let requestOpts := addOrgProjectToOptions this [] in
      let queryParams := URLSearchParams_toString (prepareParams requestOpts) in
      delete_each queryParams toDelete ;;;
      Ret (VObj [("message",
                  VStr (if truthy (js_or (js_or (js_or user_id agent_id) app_id) run_id)
                        then "Entity deleted successfully."
                        else "All users, agents, apps and runs deleted."))]))
  end.

Definition batchUpdate (memories : list (Obj Value)) : Prog Value :=
  let memoriesBody :=
    map (fun memory =>
           VObj [("memory_id", obj_get "memoryId" memory);
                 ("text", obj_get "text" memory)]) memories in
  This (fun this =>
  Await (host this ++ "/v1/batch/")
        (init "PUT" (JSON_stringify (VObj [("memories", VArr memoriesBody)]))) Ret).

Definition batchDelete (memoryIds : list Value) : Prog Value :=
  let memoriesBody := map (fun id => VObj [("memory_id", id)]) memoryIds in
  This (fun this =>
  Await (host this ++ "/v1/batch/")
        (init "DELETE" (JSON_stringify (VObj [("memories", VArr memoriesBody)]))) Ret).

Definition getProject (options : Obj Value) : Prog Value :=
  This (fun this =>
  if negb (truthy (organizationId this) && truthy (projectId this)) then
    Throw (new_Error "organizationId and projectId must be set to access project settings")
  else
    params <-
      match obj_get "fields" options with
      | VUndefined | VNull => Ret []
      | VArr fields => Ret (map (fun field => ("fields", ToString field)) fields)
      | _ => Throw (new_TypeError "options.fields?.forEach is not a function")
      end ;;
    Await (host this ++ "/api/v1/orgs/organizations/" ++ ToString (organizationId this)
             ++ "/projects/" ++ ToString (projectId this) ++ "/?"
             ++ URLSearchParams_toString params)
          (init "GET" None) Ret).

Definition updateProject (prompts : Obj Value) : Prog Value :=
  This (fun this =>
  if negb (truthy (organizationId this) && truthy (projectId this)) then
    Throw (new_Error "organizationId and projectId must be set to update project settings")
  else
    Await (host this ++ "/api/v1/orgs/organizations/" ++ ToString (organizationId this)
             ++ "/projects/" ++ ToString (projectId this) ++ "/")
          (init "PATCH" (JSON_stringify (VObj prompts))) Ret).

Definition getWebhooks (data : option (Obj Value)) : Prog Value :=
  This (fun this =>
  let projectId :=
    js_coalesce
      (match data with Some d => obj_get "projectId" d | None => VUndefined end)
      (projectId this) in
  Await (host this ++ "/api/v1/webhooks/projects/" ++ ToString projectId ++ "/")
        (init "GET" None) Ret).

Definition createWebhook (webhook : Obj Value) : Prog Value :=
  This (fun this =>
  Await (host this ++ "/api/v1/webhooks/projects/" ++ ToString (projectId this) ++ "/")
        (init "POST" (JSON_stringify (VObj webhook))) Ret).

Definition updateWebhook (webhook : Obj Value) : Prog Value :=
  This (fun this =>
  let projectId := js_or (obj_get "projectId" webhook) (projectId this) in
  Await (host this ++ "/api/v1/webhooks/" ++ ToString (obj_get "webhookId" webhook) ++ "/")
        (init "PUT"
           (JSON_stringify (VObj (obj_set "projectId" projectId (obj_spread [] webhook)))))
        Ret).

Definition deleteWebhook (data : Obj Value) : Prog Value :=
  This (fun this =>
  Await (host this ++ "/api/v1/webhooks/" ++ ToString (obj_get "webhookId" data) ++ "/")
        (init "DELETE" None) Ret).

Definition feedback (data : Obj Value) : Prog Value :=
  This (fun this =>
  Await (host this ++ "/v1/feedback/")
        (init "POST" (JSON_stringify (VObj data))) Ret).

(** [v?.toString()]. *)
Definition optional_toString (v : Value) : Value :=
  if is_nullish v then VUndefined else VStr (ToString v).

Definition createMemoryExport (data : Obj Value) : Prog Value :=
  if negb (truthy (obj_get "filters" data)) || negb (truthy (obj_get "schema" data))
  then Throw (new_Error "Missing filters or schema")
  else
    This (fun this =>
    let payload :=
      obj_set "project_id" (js_coalesce (optional_toString (projectId this)) VNull)
        (obj_set "org_id" (js_coalesce (optional_toString (organizationId this)) VNull)
           (obj_spread [] data)) in
    Await (host this ++ "/v1/exports/")
          (init "POST" (JSON_stringify (VObj payload))) Ret).

Definition getMemoryExport (data : Obj Value) : Prog Value :=
  if negb (truthy (obj_get "memory_export_id" data))
     && negb (truthy (obj_get "filters" data))
  then Throw (new_Error "Missing memory_export_id or filters")
  else
    This (fun this =>
    let payload :=
      obj_set "project_id" (js_coalesce (optional_toString (projectId this)) (VStr ""))
        (obj_set "org_id" (js_coalesce (optional_toString (organizationId this)) (VStr ""))
           (obj_spread [] data)) in
    Await (host this ++ "/v1/exports/get/")
          (init "POST" (JSON_stringify (VObj payload))) Ret).

End MemoryClient.

(** A call of one public method, with its arguments. *)
Inductive Operation : Type :=
| Ping
| Add (messages : list Value) (options : Obj Value)
| Update (memoryId : string) (data : Obj Value)
| Get (memoryId : string)
| GetAll (options : Obj Value)
| Search (query : string) (options : Obj Value)
| Delete (memoryId : string)
| DeleteAll (options : Obj Value)
| History (memoryId : string)
| Users
| DeleteUser (data : Obj Value)
| DeleteUsers (params : Obj Value)
| BatchUpdate (memories : list (Obj Value))
| BatchDelete (memoryIds : list Value)
| GetProject (options : Obj Value)
| UpdateProject (prompts : Obj Value)
| GetWebhooks (data : option (Obj Value))
| CreateWebhook (webhook : Obj Value)
| UpdateWebhook (webhook : Obj Value)
| DeleteWebhook (data : Obj Value)
| Feedback (data : Obj Value)
| CreateMemoryExport (data : Obj Value)
| GetMemoryExport (data : Obj Value).

Definition perform (op : Operation) : Prog Value :=
  match op with
  | Ping => MemoryClient.ping
  | Add messages options => MemoryClient.add messages options
  | Update memoryId data => MemoryClient.update memoryId data
  | Get memoryId => MemoryClient.get memoryId
  | GetAll options => MemoryClient.getAll options
  | Search query options => MemoryClient.search query options
  | Delete memoryId => MemoryClient.delete memoryId
  | DeleteAll options => MemoryClient.deleteAll options
  | History memoryId => MemoryClient.history memoryId
  | Users => MemoryClient.users
  | DeleteUser data => MemoryClient.deleteUser data
  | DeleteUsers params => MemoryClient.deleteUsers params
  | BatchUpdate memories => MemoryClient.batchUpdate memories
  | BatchDelete memoryIds => MemoryClient.batchDelete memoryIds
  | GetProject options => MemoryClient.getProject options
  | UpdateProject prompts => MemoryClient.updateProject prompts
  | GetWebhooks data => MemoryClient.getWebhooks data
  | CreateWebhook webhook => MemoryClient.createWebhook webhook
  | UpdateWebhook webhook => MemoryClient.updateWebhook webhook
  | DeleteWebhook data => MemoryClient.deleteWebhook data
  | Feedback data => MemoryClient.feedback data
  | CreateMemoryExport data => MemoryClient.createMemoryExport data
  | GetMemoryExport data => MemoryClient.getMemoryExport data
  end.

(** [new MemoryClient(options)] for options that pass [#validateApiKey]:
    absent fields default to the production host and to [null]. *)
Definition new_MemoryClient (apiKey : string) (host : option string)
    (organizationName projectName organizationId projectId : Value) : Client :=
  mkClient apiKey
    (match host with Some h => h | None => "https://api.mem0.ai" end)
    (js_coalesce organizationName VNull) (js_coalesce projectName VNull)
    (js_coalesce organizationId VNull) (js_coalesce projectId VNull)
    [("Authorization", "Token " ++ apiKey); ("Content-Type", "application/json")]
    60000.

(** A network that answers every request with [200 OK] and the given body. *)
Definition mockFetch (body : Value) : Network :=
  fun _ => Fulfilled (mkResponse 200 "OK" "" (Fulfilled body)).

(** A network that answers every request with the given status and text. *)
Definition mockFetchError (errorText : string) (status : Z) : Network :=
  fun _ => Fulfilled (mkResponse status "Error" errorText
                        (Rejected (JsError "SyntaxError" "Unexpected token"))).

Definition test_client : Client :=
  new_MemoryClient "test-key" None VUndefined VUndefined VUndefined VUndefined.

(* ------------------------------------------------------------------ *)
(** ** Vocabulary of the statements *)

(** [needle] occurs in [hay] (JavaScript's [hay.includes(needle)]). *)
Definition contains (needle hay : string) : Prop :=
  exists before after, hay = before ++ needle ++ after.

(** A log in which no response had a non-success status. *)
Definition Clean (log : Log) : Prop :=
  forall request response, In (request, Fulfilled response) log -> ok response = true.

(** The error [#fetchWithErrorHandling] throws for a non-success response. *)
Definition api_error_of (response : Response) : Exn :=
  new_APIError (status response)
    (js_or (VStr (text response)) (VStr (statusText response))).

(** How a call of [#fetchWithErrorHandling(url, _)] settles once [fetch] has
    settled as [outcome]. *)
Definition settled_result (this : Client) (url : string)
    (outcome : Settled Response) : Settled Value :=
  match outcome with
  | Rejected error =>
      if is_AbortError error
      then Rejected (new_Error ("Request timeout after "
                       ++ ToString (VNum (timeout this)) ++ "ms for " ++ url))
      else Rejected error
  | Fulfilled response =>
      if ok response then json response else Rejected (api_error_of response)
  end.

(** The request succeeds from the caller's point of view: a success status
    and a body that parses. *)
Definition succeeds (outcome : Settled Response) : bool :=
  match outcome with
  | Fulfilled response =>
      ok response && match json response with Fulfilled _ => true | Rejected _ => false end
  | Rejected _ => false
  end.

(** The request a method without per-call headers hands to [fetch]. *)
Definition request_of (this : Client) (url method : string) (body : option string)
  : Request :=
  mkRequest url method (obj_spread (headers this) []) body.

(** A value is an object in the sense of the guard of [ping]:
    [response && typeof response === "object"]. *)
Definition is_object_value (v : Value) : bool := truthy v && typeof_object v.

(** The program never assigns a field of [this]. *)
Inductive NoAssign {A : Type} : Prog A -> Prop :=
| NoAssign_Ret (a : A) : NoAssign (Ret a)
| NoAssign_Throw (e : Exn) : NoAssign (Throw e)
| NoAssign_This (k : Client -> Prog A) :
    (forall this, NoAssign (k this)) -> NoAssign (This k)
| NoAssign_Await url options (k : Value -> Prog A) :
    (forall v, NoAssign (k v)) -> NoAssign (Await url options k).

(** The log entries of consecutive requests, the first being call number [n]. *)
Fixpoint exchanges (net : Network) (n : nat) (sent : list Request) : Log :=
  match sent with
  | [] => []
  | request :: rest => (request, net n) :: exchanges net (S n) rest
  end.

(** The query string [deleteUsers] and [users] put after the path. *)
Definition scope_query (this : Client) : string :=
  URLSearchParams_toString
    (MemoryClient.prepareParams (MemoryClient.addOrgProjectToOptions this [])).

(** The listing request of [users()]. *)
Definition users_request (this : Client) : Request :=
  request_of this (host this ++ "/v1/entities/?" ++ scope_query this) "GET" None.

(** The request of [deleteUsers] that deletes one entity. *)
Definition delete_request (this : Client) (entity : MemoryClient.Target) : Request :=
  request_of this (MemoryClient.entity_url this (scope_query this) entity) "DELETE" None.

(** The four identifiers of [deleteUsers] are all absent or falsy. *)
Definition no_identifier (params : Obj Value) : Prop :=
  truthy (obj_get "user_id" params) = false
  /\ truthy (obj_get "agent_id" params) = false
  /\ truthy (obj_get "app_id" params) = false
  /\ truthy (obj_get "run_id" params) = false.

(** Networks and clients of the examples below. *)
Definition pong_network : Network := mockFetch (VStr "pong").

Definition invalid_key_network : Network :=
  mockFetch (VObj [("status", VStr "error"); ("message", VStr "Invalid API key")]).

Definition learning_network : Network :=
  mockFetch (VObj [("status", VStr "ok"); ("org_id", VStr "org_1");
                   ("project_id", VStr "proj_1")]).

Definition two_entities : Value :=
  VObj [("count", VNum 2);
        ("results",
         VArr [VObj [("name", VStr "alice"); ("type", VStr "user")];
               VObj [("name", VStr "bot"); ("type", VStr "agent")]])].

(** The listing succeeds, the first delete succeeds, the second one is
    answered with 500. *)
Definition failing_second_delete : Network :=
  fun n =>
    match n with
    | O => Fulfilled (mkResponse 200 "OK" "" (Fulfilled two_entities))
    | S O => Fulfilled (mkResponse 200 "OK" "" (Fulfilled (VObj [("message", VStr "deleted")])))
    | _ => Fulfilled (mkResponse 500 "Internal Server Error" "boom"
                        (Rejected (JsError "SyntaxError" "Unexpected token")))
    end.

(* ------------------------------------------------------------------ *)
(** ** The constructor *)

(** [s.trim() === ""]: the string holds nothing but white space and line
    terminators.  Strings are byte strings in UTF-8, so the white space
    outside ASCII (U+00A0, U+1680, U+2000 to U+200A, U+2028, U+2029, U+202F,
    U+205F, U+3000, U+FEFF) is matched by its two or three bytes. *)
Fixpoint only_whitespace (s : string) : bool :=
  match s with
  | EmptyString => true
  | String c rest =>
      let n := nat_of_ascii c in
      if (Nat.leb 9 n && Nat.leb n 13) || Nat.eqb n 32 then only_whitespace rest
      else
        match rest with
        | String d rest1 =>
            let m := nat_of_ascii d in
            if Nat.eqb n 194 then Nat.eqb m 160 && only_whitespace rest1
            else
              match rest1 with
              | String e rest2 =>
                  let k := nat_of_ascii e in
                  ((Nat.eqb n 225 && Nat.eqb m 154 && Nat.eqb k 128)
                   || (Nat.eqb n 226 && Nat.eqb m 128
                       && ((Nat.leb 128 k && Nat.leb k 138)
                           || Nat.eqb k 168 || Nat.eqb k 169 || Nat.eqb k 175))
                   || (Nat.eqb n 226 && Nat.eqb m 129 && Nat.eqb k 159)
                   || (Nat.eqb n 227 && Nat.eqb m 128 && Nat.eqb k 128)
                   || (Nat.eqb n 239 && Nat.eqb m 187 && Nat.eqb k 191))
                  && only_whitespace rest2
              | EmptyString => false
              end
        | EmptyString => false
        end
  end.

(** [#validateApiKey()]: the error it throws, if any. *)
Definition validateApiKey (apiKey : Value) : option Exn :=
  if negb (truthy apiKey) then Some (new_Error "Mem0 API key is required")
  else
    match apiKey with
    | VStr s =>
        if only_whitespace s then Some (new_Error "Mem0 API key cannot be empty")
        else None
    | _ => Some (new_Error "Mem0 API key must be a string")
    end.

Definition names_warning : string :=
  "Warning: Both organizationName and projectName must be provided together. "
  ++ "Note: organizationName/projectName are deprecated in favor of organizationId/projectId.".

Definition ids_warning : string :=
  "Warning: Both organizationId and projectId must be provided together.".

(** [#validateOrgProject()]: the lines it passes to [console.warn]. *)
Definition validateOrgProject
    (organizationName projectName organizationId projectId : Value) : list string :=
  ((if (is_null organizationName && negb (is_null projectName))
       || (negb (is_null organizationName) && is_null projectName)
    then [names_warning] else [])
   ++
   (if (is_null organizationId && negb (is_null projectId))
       || (negb (is_null organizationId) && is_null projectId)
    then [ids_warning] else []))%list.

(** [new MemoryClient(options)]: the instance or the error thrown, and what
    was written to [console.warn]. *)
Definition MemoryClient_new (apiKey : Value) (host : option string)
    (organizationName projectName organizationId projectId : Value)
  : Settled Client * list string :=
  let name_of_org := js_coalesce organizationName VNull in
  let name_of_project := js_coalesce projectName VNull in
  let id_of_org := js_coalesce organizationId VNull in
  let id_of_project := js_coalesce projectId VNull in
  let this :=
    mkClient (ToString apiKey)
      (match host with Some h => h | None => "https://api.mem0.ai" end)
      name_of_org name_of_project id_of_org id_of_project
      [("Authorization", "Token " ++ ToString apiKey);
       ("Content-Type", "application/json")]
      60000 in
  match validateApiKey apiKey with
  | Some error => (Rejected error, [])
  | None =>
      (Fulfilled this,
       validateOrgProject name_of_org name_of_project id_of_org id_of_project)
  end.

(* ------------------------------------------------------------------ *)
(** ** Shapes of method bodies *)

(** Every request is made without per-call headers and no assignment touches
    the fields the transport reads ([headers], [timeout]). *)
Inductive KeepsTransport {A : Type} : Prog A -> Prop :=
| KeepsTransport_Ret (a : A) : KeepsTransport (Ret a)
| KeepsTransport_Throw (e : Exn) : KeepsTransport (Throw e)
| KeepsTransport_This (k : Client -> Prog A) :
    (forall this, KeepsTransport (k this)) -> KeepsTransport (This k)
| KeepsTransport_Assign (f : Client -> Client) (k : Prog A) :
    (forall c, headers (f c) = headers c /\ timeout (f c) = timeout c) ->
    KeepsTransport k -> KeepsTransport (Assign f k)
| KeepsTransport_Await url options (k : Value -> Prog A) :
    init_headers options = [] ->
    (forall v, KeepsTransport (k v)) -> KeepsTransport (Await url options k).

(** The body awaits at most [n] requests, on every path. *)
Inductive Bounded {A : Type} : nat -> Prog A -> Prop :=
| Bounded_Ret n (a : A) : Bounded n (Ret a)
| Bounded_Throw n (e : Exn) : Bounded n (Throw e)
| Bounded_This n (k : Client -> Prog A) :
    (forall this, Bounded n (k this)) -> Bounded n (This k)
| Bounded_Assign n (f : Client -> Client) (k : Prog A) :
    Bounded n k -> Bounded n (Assign f k)
| Bounded_Await n url options (k : Value -> Prog A) :
    (forall v, Bounded n (k v)) -> Bounded (S n) (Await url options k).

(** The body either throws before any request or returns what its single
    request resolved to. *)
Inductive PassThrough : Prog Value -> Prop :=
| PassThrough_Throw (e : Exn) : PassThrough (Throw e)
| PassThrough_This (k : Client -> Prog Value) :
    (forall this, PassThrough (k this)) -> PassThrough (This k)
| PassThrough_Await url options : PassThrough (Await url options Ret).

(** Before its first request the body can only throw, and only an [Error]
    that is not an [APIError]. *)
Inductive FailsPlainly {A : Type} : Prog A -> Prop :=
| FailsPlainly_Throw name message : FailsPlainly (Throw (JsError name message))
| FailsPlainly_This (k : Client -> Prog A) :
    (forall this, FailsPlainly (k this)) -> FailsPlainly (This k)
| FailsPlainly_Assign (f : Client -> Client) (k : Prog A) :
    FailsPlainly k -> FailsPlainly (Assign f k)
| FailsPlainly_Await url options (k : Value -> Prog A) :
    FailsPlainly (Await url options k).

(** [error instanceof APIError]. *)
Definition is_APIError (e : Exn) : bool :=
  match e with APIError _ _ => true | _ => false end.

(** The body constructs no [APIError] of its own. *)
Inductive ThrowsNoAPIError {A : Type} : Prog A -> Prop :=
| ThrowsNoAPIError_Ret (a : A) : ThrowsNoAPIError (Ret a)
| ThrowsNoAPIError_Throw (e : Exn) : is_APIError e = false -> ThrowsNoAPIError (Throw e)
| ThrowsNoAPIError_This (k : Client -> Prog A) :
    (forall this, ThrowsNoAPIError (k this)) -> ThrowsNoAPIError (This k)
| ThrowsNoAPIError_Assign (f : Client -> Client) (k : Prog A) :
    ThrowsNoAPIError k -> ThrowsNoAPIError (Assign f k)
| ThrowsNoAPIError_Await url options (k : Value -> Prog A) :
    (forall v, ThrowsNoAPIError (k v)) -> ThrowsNoAPIError (Await url options k).

(** The platform never rejects with this library's [APIError]: neither
    [fetch] nor [response.json()] does. *)
Definition platform_errors_only (net : Network) : Prop :=
  forall n,
    match net n with
    | Rejected e => is_APIError e = false
    | Fulfilled response =>
        match json response with
        | Rejected e => is_APIError e = false
        | Fulfilled _ => True
        end
    end.

(** The error thrown for an aborted request. *)
Definition timeout_error (this : Client) (url : string) : Exn :=
  new_Error ("Request timeout after " ++ ToString (VNum (timeout this))
               ++ "ms for " ++ url).

(** What a rejection of [fetch] becomes in [#fetchWithErrorHandling]. *)
Definition transport_error (this : Client) (url : string) (error : Exn) : Exn :=
  if is_AbortError error then timeout_error this url else error.

(** A log in which [fetch] never rejected. *)
Definition Connected (log : Log) : Prop :=
  forall request error, ~ In (request, Rejected error) log.

Fixpoint string_forall (p : ascii -> bool) (s : string) : bool :=
  match s with
  | EmptyString => true
  | String c rest => p c && string_forall p rest
  end.

(** The characters a serialised query string is made of: the unreserved
    ones, [+] and [%] from the encoding, [&] and [=] from the separators. *)
Definition query_char (c : ascii) : bool :=
  let n := nat_of_ascii c in
  url_safe c || Nat.eqb n 43 || Nat.eqb n 37 || Nat.eqb n 38 || Nat.eqb n 61.

(** The characters an encoded key or value is made of. *)
Definition encoded_char (c : ascii) : bool :=
  let n := nat_of_ascii c in url_safe c || Nat.eqb n 43 || Nat.eqb n 37.

(** How often a character occurs in a string. *)
Fixpoint count_char (c : ascii) (s : string) : nat :=
  match s with
  | EmptyString => 0
  | String d rest => (if Ascii.eqb c d then 1 else 0) + count_char c rest
  end.

(** The number of entries under [results] in the body of a response, when
    the response has a success status and such a body. *)
Definition listed_count (outcome : Settled Response) : nat :=
  match outcome with
  | Fulfilled response =>
      if ok response then
        match json response with
        | Fulfilled listing =>
            match prop "results" listing with
            | VArr results => length results
            | _ => 0%nat
            end
        | Rejected _ => 0%nat
        end
      else 0%nat
  | Rejected _ => 0%nat
  end.

(** An options object that carries the client's id pair and no name. *)
Definition carries_id_pair (this : Client) (payload : Obj Value) : Prop :=
  obj_find "org_id" payload = Some (organizationId this)
  /\ obj_find "project_id" payload = Some (projectId this)
  /\ obj_find "org_name" payload = None
  /\ obj_find "project_name" payload = None.

(** Query parameters that carry the client's id pair and no name. *)
Definition query_carries_id_pair (this : Client) (params : Obj string) : Prop :=
  obj_find "org_id" params = Some (ToString (organizationId this))
  /\ obj_find "project_id" params = Some (ToString (projectId this))
  /\ obj_find "org_name" params = None
  /\ obj_find "project_name" params = None.

(** The paths [deleteUsers] sends requests to. *)
Definition entities_path (path : string) : Prop :=
  path = "/v1/entities/"
  \/ exists entity : MemoryClient.Target,
       path = "/v2/entities/" ++ ToString (MemoryClient.target_type entity) ++ "/"
                ++ ToString (MemoryClient.target_name entity) ++ "/".

(** Every request of the body, run on [this] without assignments, satisfies
    [P]. *)
Inductive SendsOnly {A : Type} (P : Request -> Prop) (this : Client) : Prog A -> Prop :=
| SendsOnly_Ret (a : A) : SendsOnly P this (Ret a)
| SendsOnly_Throw (e : Exn) : SendsOnly P this (Throw e)
| SendsOnly_This (k : Client -> Prog A) :
    SendsOnly P this (k this) -> SendsOnly P this (This k)
| SendsOnly_Await url options (k : Value -> Prog A) :
    P (mkRequest url (init_method options)
         (obj_spread (headers this) (init_headers options)) (init_body options)) ->
    (forall v, SendsOnly P this (k v)) -> SendsOnly P this (Await url options k).

(** A client whose ids were configured as empty strings, and one with both
    pairs configured. *)
Definition blank_scope_client : Client :=
  new_MemoryClient "test-key" None VUndefined VUndefined (VStr "") (VStr "").

Definition scoped_client : Client :=
  new_MemoryClient "test-key" None (VStr "acme") (VStr "demo")
    (VStr "org_123") (VStr "proj_456").

(** The option is neither [null] nor [undefined]. *)
Definition is_given (kv : string * Value) : bool :=
  negb (is_null (snd kv)) && negb (is_undefined (snd kv)).

(** The keys [#addOrgProjectToOptions] writes or deletes. *)
Definition scope_keys : list string :=
  ["org_id"; "project_id"; "org_name"; "project_name"].

(** The entry of an export payload for a client id: its string form, or the
    fallback when the id is [null]. *)
Definition export_id (id fallback : Value) : Value :=
  js_coalesce (MemoryClient.optional_toString id) fallback.

(** The server answers a ping with this body. *)
Definition ping_response (body : Value) : Response :=
  mkResponse 200 "OK" "" (Fulfilled body).

(* ------------------------------------------------------------------ *)
(** ** Strings and objects *)

Lemma append_assoc (a b c : string) : (a ++ b) ++ c = a ++ b ++ c.
Proof.
  induction a as [|ch a IH]; simpl; [reflexivity | now rewrite IH].
Qed.

Lemma append_nil_r (a : string) : a ++ "" = a.
Proof.
  induction a as [|ch a IH]; simpl; [reflexivity | now rewrite IH].
Qed.

Lemma contains_suffix (pre s : string) : contains s (pre ++ s).
Proof.
  exists pre, "". now rewrite append_nil_r.
Qed.

Lemma contains_app_r (pre s hay : string) : contains s hay -> contains s (pre ++ hay).
Proof.
  intros (b & a & ->). exists (pre ++ b), a. now rewrite append_assoc.
Qed.

Section ObjectLemmas.
Context {V : Type}.
Implicit Types (o : Obj V) (k : string) (v : V).

Lemma obj_find_set_same k v o : obj_find k (obj_set k v o) = Some v.
Proof.
  induction o as [|[k' v'] o IH]; simpl.
  - now rewrite String.eqb_refl.
  - destruct (String.eqb k k') eqn:E; simpl; rewrite E; [reflexivity | exact IH].
Qed.

Lemma obj_find_set_other k k2 v o :
  k <> k2 -> obj_find k2 (obj_set k v o) = obj_find k2 o.
Proof.
  intros ne. induction o as [|[k' v'] o IH]; simpl.
  - destruct (String.eqb_spec k2 k); [congruence | reflexivity].
  - destruct (String.eqb_spec k k') as [->|nk]; simpl.
    + destruct (String.eqb_spec k2 k'); [congruence | reflexivity].
    + destruct (String.eqb k2 k'); [reflexivity | exact IH].
Qed.

Lemma obj_find_delete_same k o : obj_find k (obj_delete k o) = None.
Proof.
  induction o as [|[k' v'] o IH]; simpl; [reflexivity|].
  unfold obj_delete in *. simpl.
  destruct (String.eqb k k') eqn:E; simpl; [exact IH | now rewrite E].
Qed.

Lemma obj_find_delete_other k k2 o :
  k <> k2 -> obj_find k2 (obj_delete k o) = obj_find k2 o.
Proof.
  intros ne. induction o as [|[k' v'] o IH]; simpl; [reflexivity|].
  unfold obj_delete in *. simpl.
  destruct (String.eqb_spec k k') as [->|nk]; simpl.
  - destruct (String.eqb_spec k2 k'); [congruence | exact IH].
  - destruct (String.eqb k2 k'); [reflexivity | exact IH].
Qed.

Lemma obj_find_delete_none k k2 o :
  obj_find k2 o = None -> obj_find k2 (obj_delete k o) = None.
Proof.
  intros H. destruct (string_dec k k2) as [->|ne].
  - apply obj_find_delete_same.
  - now rewrite obj_find_delete_other.
Qed.

Lemma obj_find_rest ks k o :
  In k ks -> obj_find k (obj_rest ks o) = None.
Proof.
  unfold obj_rest. revert o.
  induction ks as [|k' ks IH]; intros o [].
  - subst k'. simpl.
    assert (G : forall l o', obj_find k o' = None ->
              obj_find k (fold_left (fun acc k0 => obj_delete k0 acc) l o') = None).
    { induction l as [|x l IHl]; intros o' Ho'; simpl; [exact Ho'|].
      apply IHl. now apply obj_find_delete_none. }
    apply G, obj_find_delete_same.
  - simpl. now apply IH.
Qed.

Lemma obj_find_spread_none k (a b : Obj V) :
  obj_find k a = None -> obj_find k b = None -> obj_find k (obj_spread a b) = None.
Proof.
  unfold obj_spread. revert a.
  induction b as [|[k' v'] b IH]; intros a Ha Hb; simpl; [exact Ha|].
  simpl in Hb. destruct (String.eqb_spec k k') as [->|ne]; [discriminate|].
  apply IH; [|exact Hb].
  rewrite obj_find_set_other; [exact Ha | congruence].
Qed.
End ObjectLemmas.

(* ------------------------------------------------------------------ *)
(** ** Running programs *)

Lemma run_bind {A B : Type} net (p : Prog A) (f : A -> Prog B) :
  forall this log,
    run net (bind p f) this log =
    match run net p this log with
    | (Fulfilled a, this', log') => run net (f a) this' log'
    | (Rejected e, this', log') => (Rejected e, this', log')
    end.
Proof.
  induction p as [a|e|k IH|g k IH|url options k IH]; intros this log; simpl;
    try reflexivity.
  - apply IH.
  - apply IH.
  - destruct (fetchWithErrorHandling net this log url options) as [[v|e] log'];
      [apply IH | reflexivity].
Qed.

Lemma fetchWithErrorHandling_settles net this log url options :
  fetchWithErrorHandling net this log url options =
  (settled_result this url (net (length log)),
   (log ++ [(mkRequest url (init_method options)
               (obj_spread (headers this) (init_headers options))
               (init_body options),
             net (length log))])%list).
Proof.
  unfold fetchWithErrorHandling, settled_result.
  destruct (net (length log)) as [response|error].
  - now destruct (ok response).
  - now destruct (is_AbortError error).
Qed.

Lemma Clean_nil : Clean [].
Proof. intros request response []. Qed.

Lemma Clean_snoc log request outcome :
  Clean log ->
  (forall response, outcome = Fulfilled response -> ok response = true) ->
  Clean (log ++ [(request, outcome)])%list.
Proof.
  intros Hc Ho rq rs Hin. apply in_app_or in Hin as [Hin|[Heq|[]]].
  - exact (Hc _ _ Hin).
  - inversion Heq; subst. now apply Ho.
Qed.

(** A method body never survives a non-success response: as soon as one
    arrives, the body is rejected with the error made from that response. *)
Lemma run_fail_fast {A : Type} net (p : Prog A) :
  forall this log, Clean log ->
  forall request response,
    In (request, Fulfilled response) (log_of (run net p this log)) ->
    ok response = false ->
    outcome_of (run net p this log) = Rejected (api_error_of response).
Proof.
  induction p as [a|e|k IH|g k IH|url options k IH];
    intros this log Hc request response Hin Hbad; simpl in *.
  - rewrite (Hc _ _ Hin) in Hbad. discriminate.
  - rewrite (Hc _ _ Hin) in Hbad. discriminate.
  - now apply (IH this this log Hc request response).
  - now apply (IH (g this) log Hc request response).
  - rewrite fetchWithErrorHandling_settles in *.
    set (rq := mkRequest url _ _ _) in *.
    unfold settled_result in *.
    destruct (net (length log)) as [resp|error] eqn:Enet.
    + destruct (ok resp) eqn:Eok.
      * assert (Hc' : Clean (log ++ [(rq, Fulfilled resp)])%list).
        { apply Clean_snoc; [exact Hc|]. intros r Hr. now inversion Hr; subst. }
        destruct (json resp) as [v|e].
        -- now apply (IH v this _ Hc' request response).
        -- simpl in Hin. rewrite (Hc' _ _ Hin) in Hbad. discriminate.
      * simpl in *. apply in_app_or in Hin as [Hin|[Heq|[]]].
        -- rewrite (Hc _ _ Hin) in Hbad. discriminate.
        -- now inversion Heq; subst.
    + assert (Hc' : Clean (log ++ [(rq, Rejected error)])%list).
      { apply Clean_snoc; [exact Hc|]. discriminate. }
      destruct (is_AbortError error); simpl in Hin;
        rewrite (Hc' _ _ Hin) in Hbad; discriminate.
Qed.

Lemma api_error_message response :
  exists message,
    api_error_of response = APIError (status response) message
    /\ (text response <> "" -> contains (text response) message)
    /\ (text response = "" -> contains (statusText response) message).
Proof.
  unfold api_error_of, new_APIError, js_or.
  eexists. split; [reflexivity|]. split; intros H.
  - replace (truthy (VStr (text response))) with true
      by (simpl; now destruct (String.eqb_spec (text response) "")).
    do 2 apply contains_app_r. apply contains_suffix.
  - rewrite H. do 2 apply contains_app_r. apply contains_suffix.
Qed.

(* ------------------------------------------------------------------ *)
(** ** Error normalisation *)

(** C1.  Whatever the operation, the client and the network: if some
    round-trip of the call came back with a non-success status S and body
    text T, the call is rejected with an [APIError] whose [status] is S and
    whose message contains T, or the status text when T is empty. *)
Theorem api_error_status_fidelity :
  forall net op this request response,
    In (request, Fulfilled response) (log_of (run net (perform op) this [])) ->
    ok response = false ->
    exists message,
      outcome_of (run net (perform op) this []) =
        Rejected (APIError (status response) message)
      /\ (text response <> "" -> contains (text response) message)
      /\ (text response = "" -> contains (statusText response) message).
Proof.
  intros net op this request response Hin Hbad.
  destruct (api_error_message response) as (message & Hmsg & Htext & Hline).
  exists message. split; [|split; assumption].
  rewrite <- Hmsg.
  exact (run_fail_fast net (perform op) this [] Clean_nil request response Hin Hbad).
Qed.

Lemma api_error_status_fidelity_witness :
  let net := mockFetchError "Memory not found" 404 in
  let op := Get "non-existent" in
  let response := mkResponse 404 "Error" "Memory not found"
                    (Rejected (JsError "SyntaxError" "Unexpected token")) in
  let request := request_of test_client
                   "https://api.mem0.ai/v1/memories/non-existent/" "GET" None in
  (In (request, Fulfilled response) (log_of (run net (perform op) test_client []))
   /\ ok response = false)
  /\ exists message,
      outcome_of (run net (perform op) test_client []) = Rejected (APIError 404 message)
      /\ ("Memory not found" <> "" -> contains "Memory not found" message)
      /\ ("Memory not found" = "" -> contains "Error" message).
Proof.
  intros net op response request.
  assert (Hin : In (request, Fulfilled response)
                   (log_of (run net (perform op) test_client []))).
  { vm_compute. left. reflexivity. }
  assert (Hbad : ok response = false) by reflexivity.
  split; [split; assumption|].
  exact (api_error_status_fidelity net op test_client request response Hin Hbad).
Defined.

(* ------------------------------------------------------------------ *)
(** ** Organisation and project scoping *)

(** With both ids on the client, the merged options carry [org_id] and
    [project_id] with the client's values and neither [org_name] nor
    [project_name], whatever the names and the caller's options are. *)
Lemma merged_options_carry_id_pair :
  forall this options,
    organizationId this <> VNull ->
    projectId this <> VNull ->
    let merged := MemoryClient.addOrgProjectToOptions this options in
    obj_find "org_id" merged = Some (organizationId this)
    /\ obj_find "project_id" merged = Some (projectId this)
    /\ obj_find "org_name" merged = None
    /\ obj_find "project_name" merged = None.
Proof.
  intros this options Horg Hproj merged. subst merged.
  unfold MemoryClient.addOrgProjectToOptions.
  assert (E1 : is_null (organizationId this) = false)
    by (destruct (organizationId this); try reflexivity; congruence).
  assert (E2 : is_null (projectId this) = false)
    by (destruct (projectId this); try reflexivity; congruence).
  rewrite E1, E2. simpl.
  repeat split.
  - rewrite !obj_find_delete_other by discriminate.
    rewrite obj_find_set_other by discriminate.
    apply obj_find_set_same.
  - rewrite !obj_find_delete_other by discriminate.
    apply obj_find_set_same.
  - apply obj_find_delete_none, obj_find_delete_same.
  - apply obj_find_delete_same.
Qed.


(* ------------------------------------------------------------------ *)
(** ** Single-request methods *)

Lemma run_This {A : Type} net (k : Client -> Prog A) this log :
  run net (This k) this log = run net (k this) this log.
Proof. reflexivity. Qed.

Lemma run_Await_Ret net this log url options :
  run net (Await url options Ret) this log =
  (settled_result this url (net (length log)), this,
   (log ++ [(mkRequest url (init_method options)
               (obj_spread (headers this) (init_headers options))
               (init_body options),
             net (length log))])%list).
Proof.
  simpl. rewrite fetchWithErrorHandling_settles.
  now destruct (settled_result this url (net (length log))).
Qed.

Lemma paginationParams_truthy page page_size :
  truthy (VStr (MemoryClient.paginationParams page page_size))
  = truthy page && truthy page_size.
Proof.
  unfold MemoryClient.paginationParams.
  now destruct (truthy page && truthy page_size).
Qed.

Lemma obj_find_prepareParams_none k (options : Obj Value) :
  obj_find k options = None -> obj_find k (MemoryClient.prepareParams options) = None.
Proof.
  unfold MemoryClient.prepareParams.
  assert (G : forall (acc : Obj string),
             obj_find k acc = None -> obj_find k options = None ->
             obj_find k
               (fold_left
                  (fun params kv =>
                     if negb (is_null (snd kv)) && negb (is_undefined (snd kv))
                     then obj_set (fst kv) (ToString (snd kv)) params
                     else params) options acc) = None).
  { induction options as [|[k' v'] options IH]; intros acc Hacc Hopt; simpl;
      [exact Hacc|].
    simpl in Hopt. destruct (String.eqb_spec k k') as [->|ne]; [discriminate|].
    apply IH; [|exact Hopt].
    destruct (negb (is_null v') && negb (is_undefined v')); [|exact Hacc].
    rewrite obj_find_set_other; [exact Hacc | congruence]. }
  intros H. now apply G.
Qed.

Lemma obj_find_addOrgProject_none this k (options : Obj Value) :
  k <> "org_id" -> k <> "project_id" -> k <> "org_name" -> k <> "project_name" ->
  obj_find k options = None ->
  obj_find k (MemoryClient.addOrgProjectToOptions this options) = None.
Proof.
  intros n1 n2 n3 n4 H. unfold MemoryClient.addOrgProjectToOptions.
  assert (H0 : obj_find k (obj_spread [] options) = None)
    by now apply obj_find_spread_none.
  destruct (negb (is_null (organizationName this)) && negb (is_null (projectName this)));
    destruct (negb (is_null (organizationId this)) && negb (is_null (projectId this)));
    repeat (first [ apply obj_find_delete_none
                  | rewrite obj_find_set_other by congruence ]);
    exact H0.
Qed.

(* ------------------------------------------------------------------ *)
(** ** API version switch *)

(** The one request of [getAll]. *)
Lemma getAll_request net this options :
  let v2 := is_string "v2" (obj_get "api_version" options) in
  let listing :=
    MemoryClient.addOrgProjectToOptions this
      (obj_rest ["api_version"; "page"; "page_size"] options) in
  let pagination :=
    MemoryClient.paginationParams (obj_get "page" options) (obj_get "page_size" options) in
  requests (log_of (run net (MemoryClient.getAll options) this [])) =
    [ if v2 then
        request_of this
          (host this ++ "/v2/memories/"
             ++ (if truthy (VStr pagination) then "?" ++ pagination else ""))
          "POST" (JSON_stringify (VObj listing))
      else
        request_of this
          (host this ++ "/v1/memories/?"
             ++ URLSearchParams_toString (MemoryClient.prepareParams listing)
             ++ (if truthy (VStr pagination) then "&" ++ pagination else ""))
          "GET" None ].
Proof.
  intros v2 listing pagination.
  unfold MemoryClient.getAll. rewrite run_This.
  fold v2 listing pagination.
  destruct v2; destruct (truthy (VStr pagination));
    rewrite run_Await_Ret; unfold log_of, requests, request_of; cbn [snd map app fst];
    rewrite ?append_nil_r; reflexivity.
Qed.

(** What [getAll] and [search] send.  The wire format is selected by
    [api_version] alone; [version] is never read and travels like any other
    option.  With [api_version === "v2"] the one request is
    a POST to [/v2/memories/] (resp. [/v2/memories/search/]) whose body is
    the JSON of the remaining options merged with the client's scope (and
    with [query] for [search]); otherwise [getAll] issues a body-less GET to
    [/v1/memories/?] followed by those same options as query parameters, and
    [search] the same POST to [/v1/memories/search/]. *)
Lemma wire_format_follows_api_version :
  forall net this options query,
    let v2 := is_string "v2" (obj_get "api_version" options) in
    let listing :=
      MemoryClient.addOrgProjectToOptions this
        (obj_rest ["api_version"; "page"; "page_size"] options) in
    let pagination :=
      MemoryClient.paginationParams (obj_get "page" options) (obj_get "page_size" options) in
    let payload :=
      obj_spread [("query", VStr query)]
        (MemoryClient.addOrgProjectToOptions this (obj_rest ["api_version"] options)) in
    requests (log_of (run net (MemoryClient.getAll options) this [])) =
      [ if v2 then
          request_of this
            (host this ++ "/v2/memories/"
               ++ (if truthy (VStr pagination) then "?" ++ pagination else ""))
            "POST" (JSON_stringify (VObj listing))
        else
          request_of this
            (host this ++ "/v1/memories/?"
               ++ URLSearchParams_toString (MemoryClient.prepareParams listing)
               ++ (if truthy (VStr pagination) then "&" ++ pagination else ""))
            "GET" None ]
    /\ requests (log_of (run net (MemoryClient.search query options) this [])) =
      [ request_of this
          (host this ++ (if v2 then "/v2/memories/search/" else "/v1/memories/search/"))
          "POST" (JSON_stringify (VObj payload)) ].
Proof.
  intros net this options query v2 listing pagination payload. split.
  - exact (getAll_request net this options).
  - unfold MemoryClient.search. rewrite run_This, run_Await_Ret.
    fold v2 payload. now destruct v2.
Qed.

(** C3.  The option [version], documented in [types.ts] as an alternative
    way to specify the API version, should select the v2 wire format like
    [api_version] does.  It does not: with [{ version: "v2" }] and no
    [api_version], [getAll] still issues the v1 GET (with [version=v2] as an
    ordinary query parameter) and [search] still posts to the v1 path. *)
Theorem version_alias_is_not_consulted :
  let options := [("version", VStr "v2")] in
  let net := mockFetch (VArr []) in
  obj_get "version" options = VStr "v2"
  /\ map (fun r => (req_method r, req_url r, req_body r))
       (requests (log_of (run net (MemoryClient.getAll options) test_client [])))
     = [("GET", "https://api.mem0.ai/v1/memories/?version=v2", None)]
  /\ map (fun r => (req_method r, req_url r))
       (requests (log_of (run net (MemoryClient.search "hobbies" options) test_client [])))
     = [("POST", "https://api.mem0.ai/v1/memories/search/")].
Proof. vm_compute. repeat split. Qed.

(* ------------------------------------------------------------------ *)
(** ** Pagination *)

(** C4 (as the code has it).  [getAll] appends [page=<n>&page_size=<m>] to
    the URL exactly when [page] and [page_size] are both truthy, in v1 and
    in v2 mode; otherwise the URL ends where it would without pagination.
    Neither the query parameters nor the JSON body carry [page] or
    [page_size] themselves. *)
Theorem pagination_fragment_iff_both_truthy :
  forall net this options,
    let page := obj_get "page" options in
    let page_size := obj_get "page_size" options in
    let opts :=
      MemoryClient.addOrgProjectToOptions this
        (obj_rest ["api_version"; "page"; "page_size"] options) in
    let v2 := is_string "v2" (obj_get "api_version" options) in
    let unpaged :=
      if v2 then host this ++ "/v2/memories/"
      else host this ++ "/v1/memories/?"
             ++ URLSearchParams_toString (MemoryClient.prepareParams opts) in
    map req_url (requests (log_of (run net (MemoryClient.getAll options) this []))) =
      [ if truthy page && truthy page_size
        then unpaged ++ (if v2 then "?" else "&")
               ++ "page=" ++ ToString page ++ "&page_size=" ++ ToString page_size
        else unpaged ]
    /\ obj_find "page" opts = None
    /\ obj_find "page_size" opts = None
    /\ obj_find "page" (MemoryClient.prepareParams opts) = None
    /\ obj_find "page_size" (MemoryClient.prepareParams opts) = None.
Proof.
  intros net this options page page_size opts v2 unpaged.
  assert (Hp : obj_find "page" opts = None).
  { apply obj_find_addOrgProject_none; try discriminate.
    apply obj_find_rest. simpl. tauto. }
  assert (Hs : obj_find "page_size" opts = None).
  { apply obj_find_addOrgProject_none; try discriminate.
    apply obj_find_rest. simpl. tauto. }
  split; [|repeat split; auto using obj_find_prepareParams_none].
  pose proof (getAll_request net this options) as Hget.
  cbv zeta in Hget. rewrite Hget. fold page page_size opts v2. clear Hget.
  rewrite paginationParams_truthy.
  unfold unpaged, MemoryClient.paginationParams.
  destruct v2; destruct (truthy page && truthy page_size); cbn [map req_url request_of];
    rewrite ?append_nil_r, ?append_assoc; reflexivity.
Qed.

(** Against C4 as stated: a [page] of 0 is present in the options, together
    with [page_size], but it is falsy and no fragment is appended. *)
Lemma pagination_page_zero_counterexample :
  let options := [("page", VNum 0); ("page_size", VNum 10)] in
  obj_has "page" options = true
  /\ obj_has "page_size" options = true
  /\ map req_url
       (requests (log_of (run (mockFetch (VArr [])) (MemoryClient.getAll options)
                            test_client [])))
     = ["https://api.mem0.ai/v1/memories/?"].
Proof. vm_compute. repeat split. Qed.

(* ------------------------------------------------------------------ *)
(** ** ping *)

Lemma is_string_true s v : is_string s v = true <-> v = VStr s.
Proof.
  destruct v; simpl; try (split; [discriminate | congruence]).
  rewrite String.eqb_eq. split; congruence.
Qed.

Lemma is_string_false s v : is_string s v = false <-> v <> VStr s.
Proof.
  rewrite <- is_string_true. destruct (is_string s v); split; congruence.
Qed.

(** What [ping] does with the parsed body of a successful response. *)
Lemma run_ping net this log response body :
  net (length log) = Fulfilled response ->
  ok response = true ->
  json response = Fulfilled body ->
  exists log',
    run net MemoryClient.ping this log =
    if negb (is_object_value body) then
      (Rejected (new_APIError 500 (VStr "Invalid response format from ping endpoint")),
       this, log')
    else if negb (is_string "ok" (prop "status" body)) then
      (Rejected (new_APIError 401
                   (js_coalesce (prop "message" body) (VStr "API Key is invalid"))),
       this, log')
    else
      let this1 :=
        if truthy (prop "org_id" body) && negb (truthy (organizationId this))
        then set_organizationId (prop "org_id" body) this else this in
      let this2 :=
        if truthy (prop "project_id" body) && negb (truthy (projectId this1))
        then set_projectId (prop "project_id" body) this1 else this1 in
      (Fulfilled VUndefined, this2, log').
Proof.
  intros Hnet Hok Hjson. eexists.
  unfold MemoryClient.ping. rewrite run_This. cbn [run].
  rewrite fetchWithErrorHandling_settles, Hnet. unfold settled_result.
  rewrite Hok, Hjson. unfold is_object_value. rewrite Bool.negb_andb.
  destruct (negb (truthy body) || negb (typeof_object body)); [reflexivity|].
  destruct (negb (is_string "ok" (prop "status" body))); [reflexivity|].
  rewrite run_bind, run_This.
  destruct (truthy (prop "org_id" body) && negb (truthy (organizationId this)));
    cbn [run]; rewrite run_bind, run_This;
    match goal with
    | |- context [projectId ?c] =>
        destruct (truthy (prop "project_id" body) && negb (truthy (projectId c)))
    end; reflexivity.
Qed.

(** C5 (as the code has it).  After a successful round-trip whose body
    parsed: a body that is not an object (or array) is rejected with status
    500; an object whose [status] is ["ok"] makes [ping] return; any other
    object is rejected with status 401 and a message containing the body's
    [message] when it has one, and "API Key is invalid" otherwise. *)
Theorem ping_checks_status_field :
  forall net this response body,
    net 0%nat = Fulfilled response ->
    ok response = true ->
    json response = Fulfilled body ->
    let result := outcome_of (run net MemoryClient.ping this []) in
    (is_object_value body = false ->
       result = Rejected (APIError 500
         "API request failed with status 500: Invalid response format from ping endpoint"))
    /\ (is_object_value body = true -> prop "status" body = VStr "ok" ->
          result = Fulfilled VUndefined)
    /\ (is_object_value body = true -> prop "status" body <> VStr "ok" ->
          exists message,
            result = Rejected (APIError 401 message)
            /\ (is_nullish (prop "message" body) = false ->
                  contains (ToString (prop "message" body)) message)
            /\ (is_nullish (prop "message" body) = true ->
                  contains "API Key is invalid" message)).
Proof.
  intros net this response body Hnet Hok Hjson result.
  destruct (run_ping net this [] response body Hnet Hok Hjson) as [log' Hrun].
  subst result. rewrite Hrun. clear Hrun.
  split; [|split].
  - intros ->. reflexivity.
  - intros -> Hst. apply is_string_true in Hst. rewrite Hst. reflexivity.
  - intros -> Hst. apply is_string_false in Hst. rewrite Hst.
    cbn [negb outcome_of fst]. unfold new_APIError, js_coalesce.
    eexists. split; [reflexivity|]. split; intros ->.
    + do 2 apply contains_app_r. apply contains_suffix.
    + do 2 apply contains_app_r. apply contains_suffix.
Qed.

Lemma ping_checks_status_field_witness :
  let body := VObj [("status", VStr "error"); ("message", VStr "Invalid API key")] in
  exists message,
    outcome_of (run invalid_key_network MemoryClient.ping test_client [])
      = Rejected (APIError 401 message)
    /\ (is_nullish (prop "message" body) = false ->
          contains (ToString (prop "message" body)) message)
    /\ (is_nullish (prop "message" body) = true ->
          contains "API Key is invalid" message).
Proof.
  intros body.
  refine (proj2 (proj2 (ping_checks_status_field invalid_key_network test_client
            (mkResponse 200 "OK" "" (Fulfilled body)) body _ _ _)) _ _);
    try reflexivity.
  discriminate.
Defined.

(** Against C5 as stated: a 200 response whose body is the JSON string
    "pong" has no [status] equal to "ok", yet the error carries status 500,
    not 401. *)
Lemma ping_non_object_counterexample :
  prop "status" (VStr "pong") <> VStr "ok"
  /\ outcome_of (run pong_network MemoryClient.ping test_client [])
     = Rejected (APIError 500
         "API request failed with status 500: Invalid response format from ping endpoint").
Proof. split; [discriminate | reflexivity]. Qed.

(* ------------------------------------------------------------------ *)
(** ** update *)

(** C8.  Whatever the memory id: with neither [text] nor [metadata] the call
    is rejected with the validation error and [fetch] is never called; with
    at least one of them exactly one PUT request is issued and the call
    settles as that request does. *)
Theorem update_requires_text_or_metadata :
  forall net this memoryId data,
    let r := run net (MemoryClient.update memoryId data) this [] in
    let url := host this ++ "/v1/memories/" ++ memoryId ++ "/" in
    (obj_get "text" data = VUndefined -> obj_get "metadata" data = VUndefined ->
       outcome_of r
         = Rejected (JsError "Error" "Either text or metadata must be provided for update.")
       /\ log_of r = [])
    /\ (obj_get "text" data <> VUndefined \/ obj_get "metadata" data <> VUndefined ->
          requests (log_of r)
            = [request_of this url "PUT" (JSON_stringify (VObj data))]
          /\ outcome_of r = settled_result this url (net 0%nat)).
Proof.
  intros net this memoryId data r url. subst r.
  unfold MemoryClient.update. split.
  - intros -> ->. split; reflexivity.
  - intros H.
    assert (E : is_undefined (obj_get "text" data)
                && is_undefined (obj_get "metadata" data) = false).
    { destruct H as [H|H].
      - destruct (obj_get "text" data); try reflexivity. congruence.
      - destruct (obj_get "metadata" data); try (apply andb_false_r). congruence. }
    rewrite E, run_This, run_Await_Ret. split; reflexivity.
Qed.

Lemma update_requires_text_or_metadata_witness :
  let net := mockFetch (VArr [VObj [("id", VStr "mem_123")]]) in
  let data := [("text", VStr "Updated memory")] in
  (outcome_of (run net (MemoryClient.update "mem_123" []) test_client [])
     = Rejected (JsError "Error" "Either text or metadata must be provided for update.")
   /\ log_of (run net (MemoryClient.update "mem_123" []) test_client []) = [])
  /\ (requests (log_of (run net (MemoryClient.update "mem_123" data) test_client []))
        = [request_of test_client "https://api.mem0.ai/v1/memories/mem_123/" "PUT"
             (JSON_stringify (VObj data))]
      /\ outcome_of (run net (MemoryClient.update "mem_123" data) test_client [])
         = settled_result test_client "https://api.mem0.ai/v1/memories/mem_123/"
             (net 0%nat)).
Proof.
  intros net data. split.
  - apply (proj1 (update_requires_text_or_metadata net test_client "mem_123" []));
      reflexivity.
  - apply (proj2 (update_requires_text_or_metadata net test_client "mem_123" data)).
    left. discriminate.
Defined.

(* ------------------------------------------------------------------ *)
(** ** The configuration is a frame *)

Lemma NoAssign_bind {A B : Type} (p : Prog A) (f : A -> Prog B) :
  NoAssign p -> (forall a, NoAssign (f a)) -> NoAssign (bind p f).
Proof.
  intros Hp Hf. induction Hp; simpl; auto; constructor; auto.
Qed.

Lemma NoAssign_client {A : Type} net (p : Prog A) :
  NoAssign p -> forall this log, client_of (run net p this log) = this.
Proof.
  induction 1 as [a|e|k Hk IH|url options k Hk IH]; intros this log; simpl;
    try reflexivity.
  - apply IH.
  - destruct (fetchWithErrorHandling net this log url options) as [[v|e] log'];
      [apply IH | reflexivity].
Qed.

Lemma NoAssign_map_entities results : NoAssign (MemoryClient.map_entities results).
Proof.
  induction results as [|entity rest IH]; simpl; [constructor|].
  destruct (is_nullish entity); [constructor|].
  apply NoAssign_bind; [exact IH | intros; constructor].
Qed.

Lemma NoAssign_delete_each q toDelete : NoAssign (MemoryClient.delete_each q toDelete).
Proof.
  induction toDelete as [|entity rest IH]; simpl; repeat constructor.
  intros _. exact IH.
Qed.

Ltac no_assign :=
  repeat first
    [ apply NoAssign_Ret
    | apply NoAssign_Throw
    | apply NoAssign_map_entities
    | apply NoAssign_delete_each
    | apply NoAssign_This; intros ?
    | apply NoAssign_Await; intros ?
    | apply NoAssign_bind; [|intros ?]
    | progress cbv zeta
    | match goal with
      | |- NoAssign (if ?c then _ else _) => destruct c
      | |- NoAssign (match ?x with _ => _ end) => destruct x
      end ].

Lemma NoAssign_perform op : op <> Ping -> NoAssign (perform op).
Proof.
  destruct op; intros Hop; try congruence; clear Hop; unfold perform;
    match goal with |- NoAssign (?h _ _) => unfold h | |- NoAssign (?h _) => unfold h
                  | |- NoAssign ?h => unfold h end;
    try unfold MemoryClient.entities_to_delete, MemoryClient.users;
    no_assign.
Qed.

(** C9 (as the code has it).  Every operation other than [ping] leaves the
    client's fields as they were.  [ping] leaves [apiKey], [host], the name pair, the headers
    and the timeout as they were, and changes [organizationId] (resp.
    [projectId]) only when the field was not set (falsy, as the method tests
    it with [!this.#organizationId]) and the body of the response supplies a
    truthy [org_id] (resp. [project_id]), which is then the new value. *)
Theorem only_ping_learns_scope :
  forall net op this log,
    let this' := client_of (run net (perform op) this log) in
    (op <> Ping -> this' = this)
    /\ (op = Ping ->
          apiKey this' = apiKey this
          /\ host this' = host this
          /\ organizationName this' = organizationName this
          /\ projectName this' = projectName this
          /\ headers this' = headers this
          /\ timeout this' = timeout this
          /\ (organizationId this' = organizationId this
              \/ (truthy (organizationId this) = false
                  /\ exists response body,
                       net (length log) = Fulfilled response
                       /\ json response = Fulfilled body
                       /\ truthy (prop "org_id" body) = true
                       /\ organizationId this' = prop "org_id" body))
          /\ (projectId this' = projectId this
              \/ (truthy (projectId this) = false
                  /\ exists response body,
                       net (length log) = Fulfilled response
                       /\ json response = Fulfilled body
                       /\ truthy (prop "project_id" body) = true
                       /\ projectId this' = prop "project_id" body))).
Proof.
  intros net op this log this'. split.
  - intros Hop. apply NoAssign_client. now apply NoAssign_perform.
  - intros ->. subst this'. cbn [perform].
    destruct (net (length log)) as [response|error] eqn:Hnet.
    2:{ unfold MemoryClient.ping. rewrite run_This. cbn [run].
        rewrite fetchWithErrorHandling_settles, Hnet. unfold settled_result.
        destruct (is_AbortError error); cbn; repeat split; auto. }
    destruct (ok response) eqn:Hok.
    2:{ unfold MemoryClient.ping. rewrite run_This. cbn [run].
        rewrite fetchWithErrorHandling_settles, Hnet. unfold settled_result.
        rewrite Hok. cbn. repeat split; auto. }
    destruct (json response) as [body|e] eqn:Hjson.
    2:{ unfold MemoryClient.ping. rewrite run_This. cbn [run].
        rewrite fetchWithErrorHandling_settles, Hnet. unfold settled_result.
        rewrite Hok, Hjson. cbn. repeat split; auto. }
    destruct (run_ping net this log response body Hnet Hok Hjson) as [log' ->].
    destruct (negb (is_object_value body)); [cbn; repeat split; auto|].
    destruct (negb (is_string "ok" (prop "status" body))); [cbn; repeat split; auto|].
    cbv zeta.
    destruct (truthy (prop "org_id" body)) eqn:Eo;
      destruct (truthy (organizationId this)) eqn:Eoc;
      destruct (truthy (prop "project_id" body)) eqn:Ep;
      destruct (truthy (projectId this)) eqn:Epc;
      cbn; rewrite ?Epc; cbn;
      repeat split; auto;
      right; (split; [reflexivity|]); exists response, body; auto.
Qed.

Lemma only_ping_learns_scope_witness :
  client_of (run learning_network (perform (Get "mem_123")) test_client []) = test_client
  /\ organizationId (client_of (run learning_network (perform Ping) test_client []))
     = VStr "org_1"
  /\ host (client_of (run learning_network (perform Ping) test_client []))
     = host test_client.
Proof.
  split; [|split].
  - apply (proj1 (only_ping_learns_scope learning_network (Get "mem_123") test_client [])).
    discriminate.
  - reflexivity.
  - apply (proj2 (only_ping_learns_scope learning_network Ping test_client [])).
    reflexivity.
Defined.

(* ------------------------------------------------------------------ *)
(** ** deleteUsers *)

Lemma succeeds_settled this url outcome :
  succeeds outcome = true -> exists v, settled_result this url outcome = Fulfilled v.
Proof.
  destruct outcome as [response|error]; simpl; [|discriminate].
  destruct (ok response); simpl; [|discriminate].
  destruct (json response) as [v|e]; [eauto | discriminate].
Qed.

Lemma fails_settled this url outcome :
  succeeds outcome = false -> exists e, settled_result this url outcome = Rejected e.
Proof.
  destruct outcome as [response|error]; simpl.
  - destruct (ok response); simpl; [|eauto].
    destruct (json response) as [v|e]; [discriminate | eauto].
  - destruct (is_AbortError error); eauto.
Qed.

Lemma requests_exchanges net n sent : requests (exchanges net n sent) = sent.
Proof.
  revert n. induction sent as [|request rest IH]; intros n; simpl;
    [reflexivity | now rewrite IH].
Qed.

Lemma exchanges_app net n sent1 sent2 :
  exchanges net n (sent1 ++ sent2)
  = (exchanges net n sent1 ++ exchanges net (n + length sent1) sent2)%list.
Proof.
  revert n. induction sent1 as [|request rest IH]; intros n; simpl.
  - now rewrite Nat.add_0_r.
  - rewrite IH. now rewrite Nat.add_succ_r.
Qed.

Lemma run_users net this log :
  run net MemoryClient.users this log =
  (settled_result this (host this ++ "/v1/entities/?" ++ scope_query this)
     (net (length log)),
   this, (log ++ [(users_request this, net (length log))])%list).
Proof.
  unfold MemoryClient.users. rewrite run_This. cbv zeta. now rewrite run_Await_Ret.
Qed.

Lemma run_map_entities net this log results :
  forallb (fun entity => negb (is_nullish entity)) results = true ->
  run net (MemoryClient.map_entities results) this log
  = (Fulfilled (map MemoryClient.entity_target results), this, log).
Proof.
  induction results as [|entity rest IH]; simpl; [reflexivity|].
  intros H. apply andb_prop in H as [He Hrest].
  apply negb_true_iff in He. rewrite He, run_bind, (IH Hrest). reflexivity.
Qed.

(** The loop passes over a prefix of entities whose deletions all succeed. *)
Lemma run_delete_each_prefix net this done :
  forall log rest,
    (forall i, (i < length done)%nat -> succeeds (net (length log + i)%nat) = true) ->
    run net (MemoryClient.delete_each (scope_query this) (done ++ rest)) this log
    = run net (MemoryClient.delete_each (scope_query this) rest) this
        (log ++ exchanges net (length log) (map (delete_request this) done))%list.
Proof.
  induction done as [|entity done IH]; intros log rest Hok; simpl.
  - now rewrite app_nil_r.
  - rewrite fetchWithErrorHandling_settles.
    destruct (succeeds_settled this
                (MemoryClient.entity_url this (scope_query this) entity)
                (net (length log))) as [v Hv].
    { specialize (Hok 0%nat). rewrite Nat.add_0_r in Hok. apply Hok. simpl. lia. }
    rewrite Hv, IH.
    + rewrite <- app_assoc. rewrite length_app. simpl.
      now rewrite Nat.add_1_r.
    + intros i Hi. rewrite length_app. simpl.
      replace (length log + 1 + i)%nat with (length log + S i)%nat by lia.
      apply Hok. simpl. lia.
Qed.

(** The loop stops at the first deletion that fails. *)
Lemma run_delete_each_fails net this log entity rest :
  succeeds (net (length log)) = false ->
  exists error,
    settled_result this (MemoryClient.entity_url this (scope_query this) entity)
      (net (length log)) = Rejected error
    /\ run net (MemoryClient.delete_each (scope_query this) (entity :: rest)) this log
       = (Rejected error, this,
          (log ++ [(delete_request this entity, net (length log))])%list).
Proof.
  intros Hfail.
  destruct (fails_settled this
              (MemoryClient.entity_url this (scope_query this) entity)
              (net (length log)) Hfail) as [error He].
  exists error. split; [exact He|].
  simpl. now rewrite fetchWithErrorHandling_settles, He.
Qed.

Lemma no_identifier_message params :
  no_identifier params ->
  truthy (js_or (js_or (js_or (obj_get "user_id" params) (obj_get "agent_id" params))
                   (obj_get "app_id" params)) (obj_get "run_id" params)) = false.
Proof.
  intros (Hu & Ha & Hp & Hr). unfold js_or. now rewrite Hu, Ha, Hp, Hr.
Qed.

(** The bulk path up to the loop: one listing request, then either the
    validation error or the loop over the listed entities. *)
Lemma run_deleteUsers_bulk net this params response listing results :
  no_identifier params ->
  net 0%nat = Fulfilled response ->
  ok response = true ->
  json response = Fulfilled listing ->
  prop "results" listing = VArr results ->
  forallb (fun entity => negb (is_nullish entity)) results = true ->
  run net (MemoryClient.deleteUsers params) this [] =
  match map MemoryClient.entity_target results with
  | [] => (Rejected (JsError "Error" "No entities to delete"), this,
           [(users_request this, net 0%nat)])
  | toDelete =>
      match run net (MemoryClient.delete_each (scope_query this) toDelete) this
              [(users_request this, net 0%nat)] with
      | (Fulfilled _, this', log') =>
          (Fulfilled (VObj [("message", VStr "All users, agents, apps and runs deleted.")]),
           this', log')
      | (Rejected e, this', log') => (Rejected e, this', log')
      end
  end.
Proof.
  intros Hnone Hnet Hok Hjson Hres Hall.
  pose proof (no_identifier_message params Hnone) as Hmsg.
  destruct Hnone as (Hu & Ha & Hp & Hr).
  unfold MemoryClient.deleteUsers. cbv zeta.
  rewrite run_bind, Hu, Ha, Hp, Hr, run_bind, run_users.
  cbn [length app]. rewrite Hnet. unfold settled_result. rewrite Hok, Hjson.
  unfold MemoryClient.entities_to_delete.
  assert (Hnn : is_nullish listing = false)
    by (destruct listing; try reflexivity; discriminate).
  rewrite Hnn, Hres, (run_map_entities net this _ results Hall).
  destruct (map MemoryClient.entity_target results) as [|entity toDelete];
    [reflexivity|].
  rewrite run_This, run_bind. fold (scope_query this).
  match goal with
  | |- context [run net (MemoryClient.delete_each ?q ?l) ?t ?lg] =>
      destruct (run net (MemoryClient.delete_each q l) t lg) as [[[[]|e] this'] log']
  end; [|reflexivity].
  cbn [run]. now rewrite Hmsg.
Qed.

Lemma length_exchanges net n sent : length (exchanges net n sent) = length sent.
Proof.
  revert n. induction sent as [|request rest IH]; intros n; simpl;
    [reflexivity | now rewrite IH].
Qed.

Lemma run_delete_each_all net this log toDelete :
  (forall i, (i < length toDelete)%nat -> succeeds (net (length log + i)%nat) = true) ->
  run net (MemoryClient.delete_each (scope_query this) toDelete) this log
  = (Fulfilled tt, this,
     (log ++ exchanges net (length log) (map (delete_request this) toDelete))%list).
Proof.
  intros Hsucc. rewrite <- (app_nil_r toDelete) at 1.
  now rewrite run_delete_each_prefix.
Qed.

Lemma run_delete_each_stops net this log done entity remaining :
  (forall i, (i < length done)%nat -> succeeds (net (length log + i)%nat) = true) ->
  succeeds (net (length log + length done)%nat) = false ->
  exists error,
    settled_result this (MemoryClient.entity_url this (scope_query this) entity)
      (net (length log + length done)%nat) = Rejected error
    /\ run net (MemoryClient.delete_each (scope_query this) (done ++ entity :: remaining))
         this log
       = (Rejected error, this,
          (log ++ exchanges net (length log)
                    (map (delete_request this) (done ++ [entity])))%list).
Proof.
  intros Hsucc Hfail.
  rewrite run_delete_each_prefix by exact Hsucc.
  set (log1 := (log ++ exchanges net (length log) (map (delete_request this) done))%list).
  assert (Hlen : length log1 = (length log + length done)%nat).
  { subst log1. now rewrite length_app, length_exchanges, length_map. }
  destruct (run_delete_each_fails net this log1 entity remaining) as (error & Hset & Hrun).
  { now rewrite Hlen. }
  exists error. rewrite Hlen in Hset. split; [exact Hset|].
  rewrite Hrun. subst log1. rewrite Hlen, map_app, exchanges_app, length_map.
  cbn [map exchanges]. now rewrite <- app_assoc.
Qed.

Lemma run_deleteUsers_bulk_nonempty net this params response listing results :
  no_identifier params ->
  net 0%nat = Fulfilled response ->
  ok response = true ->
  json response = Fulfilled listing ->
  prop "results" listing = VArr results ->
  forallb (fun entity => negb (is_nullish entity)) results = true ->
  results <> [] ->
  run net (MemoryClient.deleteUsers params) this [] =
  match run net (MemoryClient.delete_each (scope_query this)
                   (map MemoryClient.entity_target results)) this
          [(users_request this, net 0%nat)] with
  | (Fulfilled _, this', log') =>
      (Fulfilled (VObj [("message", VStr "All users, agents, apps and runs deleted.")]),
       this', log')
  | (Rejected e, this', log') => (Rejected e, this', log')
  end.
Proof.
  intros Hnone Hnet Hok Hjson Hres Hall Hne.
  rewrite (run_deleteUsers_bulk net this params response listing results
             Hnone Hnet Hok Hjson Hres Hall).
  destruct results; [congruence | reflexivity].
Qed.

(** C7.  With no identifier given and a listing that succeeds with zero
    results, [deleteUsers] is rejected with the validation error "No
    entities to delete"; the listing GET is the only request ever issued. *)
Theorem deleteUsers_nothing_to_delete :
  forall net this params response listing,
    no_identifier params ->
    net 0%nat = Fulfilled response ->
    ok response = true ->
    json response = Fulfilled listing ->
    prop "results" listing = VArr [] ->
    let r := run net (MemoryClient.deleteUsers params) this [] in
    outcome_of r = Rejected (JsError "Error" "No entities to delete")
    /\ requests (log_of r) = [users_request this]
    /\ req_method (users_request this) = "GET"
    /\ client_of r = this.
Proof.
  intros net this params response listing Hnone Hnet Hok Hjson Hres r. subst r.
  rewrite (run_deleteUsers_bulk net this params response listing []
             Hnone Hnet Hok Hjson Hres eq_refl).
  repeat split.
Qed.

Lemma deleteUsers_nothing_to_delete_witness :
  let net := mockFetch (VObj [("count", VNum 0); ("results", VArr [])]) in
  let r := run net (MemoryClient.deleteUsers []) test_client [] in
  outcome_of r = Rejected (JsError "Error" "No entities to delete")
  /\ requests (log_of r) = [users_request test_client]
  /\ req_method (users_request test_client) = "GET"
  /\ client_of r = test_client.
Proof.
  intros net r.
  apply (deleteUsers_nothing_to_delete net test_client []
           (mkResponse 200 "OK" "" (Fulfilled (VObj [("count", VNum 0); ("results", VArr [])])))
           (VObj [("count", VNum 0); ("results", VArr [])]));
    try reflexivity.
  repeat split.
Defined.

(** C6.  On the bulk path the listing request is followed by one DELETE per
    listed entity, in the listed order, each issued after the previous one
    has settled.  If every deletion succeeds the call returns its message.
    If the deletion of [entity] is the first to fail, the call is rejected
    with exactly the error of that request, the log ends with that request
    (the deletions before it stay as they were answered, none is undone) and
    no request is issued for the entities after it. *)
Theorem deleteUsers_bulk_sequential_fail_fast :
  forall net this params response listing results,
    no_identifier params ->
    net 0%nat = Fulfilled response ->
    ok response = true ->
    json response = Fulfilled listing ->
    prop "results" listing = VArr results ->
    forallb (fun entity => negb (is_nullish entity)) results = true ->
    results <> [] ->
    let toDelete := map MemoryClient.entity_target results in
    let r := run net (MemoryClient.deleteUsers params) this [] in
    ((forall i, (i < length toDelete)%nat -> succeeds (net (S i)) = true) ->
       requests (log_of r) = users_request this :: map (delete_request this) toDelete
       /\ log_of r
          = exchanges net 0 (users_request this :: map (delete_request this) toDelete)
       /\ outcome_of r
          = Fulfilled (VObj [("message", VStr "All users, agents, apps and runs deleted.")]))
    /\ (forall done entity remaining,
          toDelete = (done ++ entity :: remaining)%list ->
          (forall i, (i < length done)%nat -> succeeds (net (S i)) = true) ->
          succeeds (net (S (length done))) = false ->
          requests (log_of r)
            = users_request this :: map (delete_request this) (done ++ [entity])
          /\ log_of r
             = exchanges net 0
                 (users_request this :: map (delete_request this) (done ++ [entity]))
          /\ (exists error,
                settled_result this
                  (MemoryClient.entity_url this (scope_query this) entity)
                  (net (S (length done))) = Rejected error
                /\ outcome_of r = Rejected error)
          /\ client_of r = this).
Proof.
  intros net this params response listing results
         Hnone Hnet Hok Hjson Hres Hall Hne toDelete r.
  subst r.
  rewrite (run_deleteUsers_bulk_nonempty net this params response listing results
             Hnone Hnet Hok Hjson Hres Hall Hne).
  fold toDelete. split.
  - intros Hsucc.
    rewrite run_delete_each_all by (intros i Hi; now apply Hsucc).
    cbn [log_of snd outcome_of fst length app].
    change ((users_request this, net 0%nat)
              :: exchanges net 1 (map (delete_request this) toDelete))
      with (exchanges net 0 (users_request this :: map (delete_request this) toDelete)).
    rewrite requests_exchanges. repeat split.
  - intros done entity remaining Hsplit Hsucc Hfail. rewrite Hsplit.
    destruct (run_delete_each_stops net this [(users_request this, net 0%nat)]
                done entity remaining) as (error & Hset & Hrun);
      [intros i Hi; now apply Hsucc | exact Hfail |].
    rewrite Hrun. cbn [length Nat.add] in Hset.
    cbn [log_of snd outcome_of client_of fst length app].
    change ((users_request this, net 0%nat)
              :: exchanges net 1 (map (delete_request this) (done ++ [entity])))
      with (exchanges net 0
              (users_request this :: map (delete_request this) (done ++ [entity]))).
    rewrite requests_exchanges.
    split; [reflexivity|]. split; [reflexivity|]. split; [|reflexivity].
    exists error. split; [exact Hset | reflexivity].
Qed.

Lemma deleteUsers_bulk_sequential_fail_fast_witness :
  let r := run failing_second_delete (MemoryClient.deleteUsers []) test_client [] in
  map (fun request => (req_method request, req_url request)) (requests (log_of r))
    = [("GET", "https://api.mem0.ai/v1/entities/?");
       ("DELETE", "https://api.mem0.ai/v2/entities/user/alice/?");
       ("DELETE", "https://api.mem0.ai/v2/entities/agent/bot/?")]
  /\ (exists error,
        settled_result test_client "https://api.mem0.ai/v2/entities/agent/bot/?"
          (failing_second_delete 2%nat) = Rejected error
        /\ outcome_of r = Rejected error)
  /\ client_of r = test_client.
Proof.
  intros r.
  destruct (deleteUsers_bulk_sequential_fail_fast failing_second_delete test_client []
              (mkResponse 200 "OK" "" (Fulfilled two_entities)) two_entities
              [VObj [("name", VStr "alice"); ("type", VStr "user")];
               VObj [("name", VStr "bot"); ("type", VStr "agent")]])
    as [_ Hstop]; try reflexivity; try (repeat split; reflexivity); try discriminate.
  destruct (Hstop [MemoryClient.mkTarget (VStr "user") (VStr "alice")]
                  (MemoryClient.mkTarget (VStr "agent") (VStr "bot")) [])
    as (Hsent & _ & Herr & Hclient); try reflexivity.
  { intros i Hi. destruct i as [|i]; [reflexivity | simpl in Hi; lia]. }
  split; [|split; [exact Herr | exact Hclient]].
  subst r. rewrite Hsent. reflexivity.
Defined.

(** The targeted path: one entity, one DELETE request, however it settles. *)
Lemma run_delete_one net this (entity : MemoryClient.Target) (message : Value) :
  requests (log_of (run net
    (This (fun this =>
       MemoryClient.delete_each (scope_query this) [entity] ;;; Ret message)) this []))
  = [delete_request this entity].
Proof.
  rewrite run_This, run_bind. cbn [MemoryClient.delete_each]. rewrite run_This.
  cbn [run]. rewrite fetchWithErrorHandling_settles.
  destruct (settled_result this _ (net (length (@nil (Request * Settled Response)))));
    reflexivity.
Qed.

Lemma run_log_prefix {A : Type} net (p : Prog A) :
  forall this log, exists rest, log_of (run net p this log) = (log ++ rest)%list.
Proof.
  induction p as [a|e|k IH|g k IH|url options k IH]; intros this log; simpl.
  - exists []. now rewrite app_nil_r.
  - exists []. now rewrite app_nil_r.
  - apply IH.
  - apply IH.
  - rewrite fetchWithErrorHandling_settles.
    destruct (settled_result this url (net (length log))) as [v|e].
    + match goal with
      | |- context [run net (k v) this ?l] => destruct (IH v this l) as [rest Hrest]
      end.
      rewrite Hrest, <- app_assoc. eexists. reflexivity.
    + eexists. reflexivity.
Qed.

(** The bulk path starts with the listing request. *)
Lemma deleteUsers_bulk_lists_first net this params :
  no_identifier params ->
  exists rest,
    requests (log_of (run net (MemoryClient.deleteUsers params) this []))
    = users_request this :: rest.
Proof.
  intros (Hu & Ha & Hp & Hr).
  unfold MemoryClient.deleteUsers. cbv zeta.
  rewrite run_bind, Hu, Ha, Hp, Hr, run_bind, run_users. cbn [length app].
  destruct (settled_result this (host this ++ "/v1/entities/?" ++ scope_query this)
              (net 0%nat)) as [entities|e]; [|exists []; reflexivity].
  match goal with
  | |- context [run net (MemoryClient.entities_to_delete entities) this ?l] =>
      destruct (run_log_prefix net (MemoryClient.entities_to_delete entities) this l)
        as [rest1 H1];
      destruct (run net (MemoryClient.entities_to_delete entities) this l)
        as [[[toDelete|e] this1] log1]
  end; cbn [log_of snd] in H1; subst log1.
  - match goal with
    | |- context [run net ?q this1 ?l] =>
        destruct (run_log_prefix net q this1 l) as [rest2 H2]
    end.
    rewrite H2. unfold requests. rewrite !map_app. cbn [map fst app].
    eexists. reflexivity.
  - unfold requests. cbn [log_of snd]. rewrite map_app. cbn [map fst app].
    eexists. reflexivity.
Qed.

(** C10 (as the code has it).  [deleteUsers] looks at its identifiers in the
    order [user_id], [agent_id], [app_id], [run_id] and takes the first one
    that is truthy: it then issues exactly one request, a DELETE for that
    identifier, and the identifiers after it play no part.  An identifier
    that is falsy (absent, or the empty string) is passed over, whatever its
    rank; when all four are falsy the call takes the bulk path, which starts
    with the listing request. *)
Theorem deleteUsers_identifier_precedence :
  forall net this params,
    let user_id := obj_get "user_id" params in
    let agent_id := obj_get "agent_id" params in
    let app_id := obj_get "app_id" params in
    let run_id := obj_get "run_id" params in
    let sent := requests (log_of (run net (MemoryClient.deleteUsers params) this [])) in
    (truthy user_id = true ->
       sent = [delete_request this (MemoryClient.mkTarget (VStr "user") user_id)])
    /\ (truthy user_id = false -> truthy agent_id = true ->
          sent = [delete_request this (MemoryClient.mkTarget (VStr "agent") agent_id)])
    /\ (truthy user_id = false -> truthy agent_id = false -> truthy app_id = true ->
          sent = [delete_request this (MemoryClient.mkTarget (VStr "app") app_id)])
    /\ (truthy user_id = false -> truthy agent_id = false -> truthy app_id = false ->
        truthy run_id = true ->
          sent = [delete_request this (MemoryClient.mkTarget (VStr "run") run_id)])
    /\ (truthy user_id = false -> truthy agent_id = false -> truthy app_id = false ->
        truthy run_id = false ->
          exists rest, sent = users_request this :: rest).
Proof.
  intros net this params user_id agent_id app_id run_id sent.
  repeat split; try (intros Hu Ha Hp Hr; subst sent;
                     apply deleteUsers_bulk_lists_first; repeat split; assumption).
  all: subst sent; unfold MemoryClient.deleteUsers; cbv zeta;
    fold user_id agent_id app_id run_id; intros;
    repeat match goal with H : truthy _ = _ |- _ => rewrite H; clear H end;
    cbn [bind]; apply run_delete_one.
Qed.

Lemma deleteUsers_identifier_precedence_witness :
  let params := [("run_id", VStr "r1"); ("agent_id", VStr "shopping-assistant");
                 ("user_id", VStr "alice")] in
  let params' := [("run_id", VStr "r1"); ("app_id", VStr "shop")] in
  map req_url (requests (log_of (run (mockFetch (VObj [])) (MemoryClient.deleteUsers params)
                                   test_client [])))
    = ["https://api.mem0.ai/v2/entities/user/alice/?"]
  /\ map req_url (requests (log_of (run (mockFetch (VObj [])) (MemoryClient.deleteUsers params')
                                      test_client [])))
    = ["https://api.mem0.ai/v2/entities/app/shop/?"].
Proof.
  intros params params'. split.
  - rewrite (proj1 (deleteUsers_identifier_precedence (mockFetch (VObj [])) test_client params));
      reflexivity.
  - rewrite (proj1 (proj2 (proj2 (deleteUsers_identifier_precedence (mockFetch (VObj []))
                                    test_client params'))));
      reflexivity.
Defined.

(* ------------------------------------------------------------------ *)
(** ** Construction *)

Lemma is_null_coalesce v : is_null (js_coalesce v VNull) = is_nullish v.
Proof. now destruct v. Qed.

(** X1.  [new MemoryClient] succeeds exactly for an API key that is a string
    with something other than white space in it, whatever the other options
    are, and then yields the client with the defaults filled in.  A falsy key
    is refused as "required", a truthy non-string as "must be a string", a
    blank string as "cannot be empty"; a refusal writes no warning. *)
Theorem constructor_validates_api_key :
  forall apiKey host orgName projName orgId projId,
    let made := MemoryClient_new apiKey host orgName projName orgId projId in
    (forall this,
       fst made = Fulfilled this <->
       exists s, apiKey = VStr s /\ only_whitespace s = false
                 /\ this = new_MemoryClient s host orgName projName orgId projId)
    /\ (truthy apiKey = false ->
          made = (Rejected (JsError "Error" "Mem0 API key is required"), []))
    /\ (truthy apiKey = true -> (forall s, apiKey <> VStr s) ->
          made = (Rejected (JsError "Error" "Mem0 API key must be a string"), []))
    /\ (forall s, apiKey = VStr s -> s <> "" -> only_whitespace s = true ->
          made = (Rejected (JsError "Error" "Mem0 API key cannot be empty"), [])).
Proof.
  intros apiKey host orgName projName orgId projId made. subst made.
  unfold MemoryClient_new, validateApiKey. repeat split.
  - intros H. destruct (truthy apiKey) eqn:Et; cbn [negb] in H; [|discriminate].
    destruct apiKey; try discriminate.
    destruct (only_whitespace s) eqn:Ew; [discriminate|].
    exists s. split; [reflexivity|]. split; [exact Ew|].
    cbn [fst] in H. injection H as <-. reflexivity.
  - intros (s & -> & Hw & ->).
    assert (Hne : truthy (VStr s) = true).
    { destruct s; [discriminate Hw | reflexivity]. }
    rewrite Hne, Hw. reflexivity.
  - intros ->. reflexivity.
  - intros -> Hns. destruct apiKey; try reflexivity. elim (Hns s). reflexivity.
  - intros s -> Hne Hw.
    assert (Ht : truthy (VStr s) = true) by (destruct s; [congruence | reflexivity]).
    now rewrite Ht, Hw.
Qed.

Lemma constructor_validates_api_key_witness :
  fst (MemoryClient_new (VStr "test-key") None VUndefined VUndefined VUndefined VUndefined)
    = Fulfilled test_client
  /\ MemoryClient_new (VStr "") None VUndefined VUndefined VUndefined VUndefined
     = (Rejected (JsError "Error" "Mem0 API key is required"), [])
  /\ MemoryClient_new (VNum 42) None VUndefined VUndefined VUndefined VUndefined
     = (Rejected (JsError "Error" "Mem0 API key must be a string"), [])
  /\ MemoryClient_new (VStr "   ") None VUndefined VUndefined VUndefined VUndefined
     = (Rejected (JsError "Error" "Mem0 API key cannot be empty"), []).
Proof.
  split; [|split; [|split]].
  - apply (proj1 (constructor_validates_api_key (VStr "test-key") None
                    VUndefined VUndefined VUndefined VUndefined)).
    exists "test-key". repeat split.
  - apply (proj1 (proj2 (constructor_validates_api_key (VStr "") None
                           VUndefined VUndefined VUndefined VUndefined))).
    reflexivity.
  - apply (proj1 (proj2 (proj2 (constructor_validates_api_key (VNum 42) None
                                  VUndefined VUndefined VUndefined VUndefined))));
      [reflexivity | discriminate].
  - apply (proj2 (proj2 (proj2 (constructor_validates_api_key (VStr "   ") None
                                  VUndefined VUndefined VUndefined VUndefined)))
             "   "); [reflexivity | discriminate | reflexivity].
Defined.

(** X2.  For a key that passes validation the constructor never throws over
    the scoping options: it warns about the id pair exactly when one of
    [organizationId], [projectId] is given and the other is not, and about
    the name pair likewise; nothing else is written. *)
Theorem constructor_warns_on_half_a_pair :
  forall apiKey host orgName projName orgId projId,
    validateApiKey apiKey = None ->
    let made := MemoryClient_new apiKey host orgName projName orgId projId in
    (exists this, fst made = Fulfilled this)
    /\ (In ids_warning (snd made) <-> is_nullish orgId <> is_nullish projId)
    /\ (In names_warning (snd made) <-> is_nullish orgName <> is_nullish projName)
    /\ (forall line, In line (snd made) -> line = names_warning \/ line = ids_warning).
Proof.
  intros apiKey host orgName projName orgId projId Hkey made. subst made.
  unfold MemoryClient_new, validateOrgProject. rewrite Hkey. cbn [fst snd].
  rewrite !is_null_coalesce.
  assert (Hd : names_warning <> ids_warning) by (vm_compute; discriminate).
  split; [eexists; reflexivity|].
  destruct (is_nullish orgName), (is_nullish projName),
           (is_nullish orgId), (is_nullish projId); cbn;
    (repeat split; try tauto; try congruence;
     intros; repeat match goal with
                    | H : _ \/ _ |- _ => destruct H
                    | H : False |- _ => destruct H
                    end; try congruence; try (symmetry in H; contradiction); auto).
Qed.

Lemma constructor_warns_on_half_a_pair_witness :
  snd (MemoryClient_new (VStr "test-key") None VUndefined VUndefined
         (VStr "org_123") VUndefined) = [ids_warning]
  /\ (In ids_warning
        (snd (MemoryClient_new (VStr "test-key") None VUndefined VUndefined
                (VStr "org_123") VUndefined))
      <-> is_nullish (VStr "org_123") <> is_nullish VUndefined).
Proof.
  split; [reflexivity|].
  apply (constructor_warns_on_half_a_pair (VStr "test-key") None VUndefined VUndefined
           (VStr "org_123") VUndefined).
  reflexivity.
Defined.

(* ------------------------------------------------------------------ *)
(** ** Properties of every method *)

Ltac walk_body :=
  repeat first
    [ progress cbv zeta
    | progress cbn [bind]
    | match goal with
      | |- _ (if ?c then _ else _) => destruct c
      | |- _ (match ?x with _ => _ end) => destruct x
      | |- _ (bind (if ?c then _ else _) _) => destruct c
      | |- _ (bind (match ?x with _ => _ end) _) => destruct x
      end
    | constructor; intros ].

Ltac unfold_method :=
  unfold perform;
  match goal with
  | |- _ (?h _ _) => unfold h
  | |- _ (?h _) => unfold h
  | |- _ ?h => unfold h
  end.

Lemma KeepsTransport_bind {A B : Type} (p : Prog A) (f : A -> Prog B) :
  KeepsTransport p -> (forall a, KeepsTransport (f a)) -> KeepsTransport (bind p f).
Proof.
  intros Hp Hf. induction Hp; simpl; auto; constructor; auto.
Qed.

Lemma KeepsTransport_map_entities results :
  KeepsTransport (MemoryClient.map_entities results).
Proof.
  induction results as [|entity rest IH]; simpl; [constructor|].
  destruct (is_nullish entity); [constructor|].
  apply KeepsTransport_bind; [exact IH | intros; constructor].
Qed.

Lemma KeepsTransport_delete_each q toDelete :
  KeepsTransport (MemoryClient.delete_each q toDelete).
Proof.
  induction toDelete as [|entity rest IH]; simpl; repeat constructor.
  intros _. exact IH.
Qed.

Lemma KeepsTransport_deleteUsers params :
  KeepsTransport (MemoryClient.deleteUsers params).
Proof.
  unfold MemoryClient.deleteUsers. cbv zeta.
  apply KeepsTransport_bind.
  - repeat match goal with |- _ (if ?c then _ else _) => destruct c end;
      try apply KeepsTransport_Ret.
    apply KeepsTransport_bind.
    + unfold MemoryClient.users. walk_body.
    + intros entities. unfold MemoryClient.entities_to_delete.
      destruct (is_nullish entities); [constructor|].
      destruct (prop "results" entities); try constructor.
      apply KeepsTransport_map_entities.
  - intros [|entity rest]; [constructor|].
    constructor. intros this. cbv zeta.
    apply KeepsTransport_bind; [apply KeepsTransport_delete_each | intros; constructor].
Qed.

Lemma KeepsTransport_perform op : KeepsTransport (perform op).
Proof.
  destruct op;
    try (apply KeepsTransport_deleteUsers);
    unfold_method; walk_body.
Qed.

Lemma Connected_nil : Connected [].
Proof. intros request error []. Qed.

Lemma Connected_snoc log request response :
  Connected log -> Connected (log ++ [(request, Fulfilled response)])%list.
Proof.
  intros Hc rq e Hin. apply in_app_or in Hin as [Hin|[Heq|[]]].
  - exact (Hc _ _ Hin).
  - discriminate.
Qed.

(** Requests carry the client's default headers and nothing else. *)
Lemma run_headers {A : Type} net (p : Prog A) :
  KeepsTransport p ->
  forall this log,
    (forall request, In request (requests log) -> req_headers request = headers this) ->
    forall request,
      In request (requests (log_of (run net p this log))) ->
      req_headers request = headers this.
Proof.
  induction 1 as [a|e|k Hk IH|f k Hf Hk IH|url options k Ho Hk IH];
    intros this log Hlog request Hin; simpl in *; auto.
  - now apply (IH this this log).
  - destruct (Hf this) as [Hh _]. rewrite <- Hh.
    apply (IH (f this) log); [|exact Hin].
    intros rq Hrq. rewrite Hh. now apply Hlog.
  - rewrite fetchWithErrorHandling_settles in Hin. rewrite Ho in Hin.
    set (rq := mkRequest url _ _ _) in *.
    assert (Hlog' : forall r, In r (requests (log ++ [(rq, net (length log))])%list) ->
                              req_headers r = headers this).
    { intros r Hr. unfold requests in Hr. rewrite map_app in Hr.
      apply in_app_or in Hr as [Hr|[<-|[]]]; [now apply Hlog | reflexivity]. }
    destruct (settled_result this url (net (length log))) as [v|e].
    + now apply (IH v this _ Hlog').
    + now apply Hlog'.
Qed.

(** A rejection of [fetch] ends the method with the rejection itself, or
    with the timeout error when it is an [AbortError]. *)
Lemma run_transport_failure {A : Type} net (p : Prog A) :
  KeepsTransport p ->
  forall this log, Connected log ->
  forall request error,
    In (request, Rejected error) (log_of (run net p this log)) ->
    outcome_of (run net p this log)
    = Rejected (transport_error this (req_url request) error).
Proof.
  induction 1 as [a|e|k Hk IH|f k Hf Hk IH|url options k Ho Hk IH];
    intros this log Hc request error Hin; simpl in *.
  - elim (Hc _ _ Hin).
  - elim (Hc _ _ Hin).
  - now apply (IH this this log).
  - destruct (Hf this) as [_ Ht].
    replace (transport_error this (req_url request) error)
      with (transport_error (f this) (req_url request) error)
      by (unfold transport_error, timeout_error; now rewrite Ht).
    now apply (IH (f this) log).
  - rewrite fetchWithErrorHandling_settles in *.
    set (rq := mkRequest url _ _ _) in *.
    destruct (net (length log)) as [response|err] eqn:Enet; simpl in *.
    + pose proof (Connected_snoc log rq response Hc) as Hc'.
      destruct (ok response).
      * destruct (json response) as [v|e]; [now apply (IH v this _ Hc')|].
        elim (Hc' _ _ Hin).
      * elim (Hc' _ _ Hin).
    + assert (Heq : (request, @Rejected Response error) = (rq, Rejected err)).
      { destruct (is_AbortError err); simpl in Hin;
          apply in_app_or in Hin as [Hin|[Heq|[]]];
          solve [elim (Hc _ _ Hin) | now symmetry]. }
      inversion Heq; subst. unfold transport_error, timeout_error.
      now destruct (is_AbortError err).
Qed.

(** X3.  Whatever the operation, every request a constructed client sends
    carries exactly the two default headers: [Authorization: Token <apiKey>]
    and [Content-Type: application/json]. *)
Theorem every_request_is_authorized :
  forall net op apiKey host orgName projName orgId projId request,
    let this := new_MemoryClient apiKey host orgName projName orgId projId in
    In request (requests (log_of (run net (perform op) this []))) ->
    req_headers request
    = [("Authorization", "Token " ++ apiKey); ("Content-Type", "application/json")].
Proof.
  intros net op apiKey host orgName projName orgId projId request this Hin.
  apply (run_headers net (perform op) (KeepsTransport_perform op) this []);
    [intros r [] | exact Hin].
Qed.

Lemma every_request_is_authorized_witness :
  let request :=
    request_of test_client "https://api.mem0.ai/v1/memories/mem_123/history/" "GET" None in
  In request (requests (log_of (run (mockFetch (VArr [])) (perform (History "mem_123"))
                                  test_client [])))
  /\ req_headers request
     = [("Authorization", "Token test-key"); ("Content-Type", "application/json")].
Proof.
  intros request.
  assert (Hin : In request
                  (requests (log_of (run (mockFetch (VArr [])) (perform (History "mem_123"))
                                       test_client []))))
    by (left; reflexivity).
  split; [exact Hin|].
  exact (every_request_is_authorized (mockFetch (VArr [])) (History "mem_123") "test-key"
           None VUndefined VUndefined VUndefined VUndefined request Hin).
Defined.

(** X4.  Whatever the operation: when [fetch] itself rejects, the call is
    rejected with that very error, except that an error named "AbortError"
    becomes [Error("Request timeout after <timeout>ms for <url>")] with the
    URL of the request that was aborted.  A rejection under any other name
    passes through unchanged. *)
Theorem transport_failures_propagate :
  forall net op this request error,
    In (request, Rejected error) (log_of (run net (perform op) this [])) ->
    outcome_of (run net (perform op) this [])
    = Rejected
        (if is_AbortError error
         then JsError "Error"
                ("Request timeout after " ++ string_of_Z (timeout this)
                   ++ "ms for " ++ req_url request)
         else error).
Proof.
  intros net op this request error Hin.
  rewrite (run_transport_failure net (perform op) (KeepsTransport_perform op)
             this [] Connected_nil request error Hin).
  unfold transport_error, timeout_error. now destruct (is_AbortError error).
Qed.

Lemma transport_failures_propagate_witness :
  let net : Network := fun _ => Rejected (JsError "AbortError" "The signal has been aborted") in
  outcome_of (run net (perform (Search "hobbies" [])) test_client [])
  = Rejected (JsError "Error"
      "Request timeout after 60000ms for https://api.mem0.ai/v1/memories/search/").
Proof.
  intros net.
  apply (transport_failures_propagate net (Search "hobbies" []) test_client
           (request_of test_client "https://api.mem0.ai/v1/memories/search/" "POST"
              (JSON_stringify (VObj [("query", VStr "hobbies")])))
           (JsError "AbortError" "The signal has been aborted")).
  left. reflexivity.
Defined.

(** X5.  Whatever the operation, the message of the [APIError] raised for a
    non-success response starts with "API request failed with status " and
    the status code in decimal. *)
Theorem api_error_message_names_status :
  forall net op this request response,
    In (request, Fulfilled response) (log_of (run net (perform op) this [])) ->
    ok response = false ->
    exists detail,
      outcome_of (run net (perform op) this [])
      = Rejected (APIError (status response)
                    ("API request failed with status " ++ string_of_Z (status response)
                       ++ ": " ++ detail))
      /\ (detail = text response \/ (text response = "" /\ detail = statusText response)).
Proof.
  intros net op this request response Hin Hbad.
  rewrite (run_fail_fast net (perform op) this [] Clean_nil request response Hin Hbad).
  unfold api_error_of, new_APIError, js_or.
  eexists. split; [reflexivity|].
  destruct (text response) as [|c rest]; [right; split; reflexivity | left; reflexivity].
Qed.

Lemma api_error_message_names_status_witness :
  exists detail,
    outcome_of (run (mockFetchError "Rate limit exceeded" 429)
                  (perform (Search "test" [])) test_client [])
    = Rejected (APIError 429 ("API request failed with status 429: " ++ detail))
    /\ (detail = "Rate limit exceeded" \/ ("Rate limit exceeded" = "" /\ detail = "Error")).
Proof.
  apply (api_error_message_names_status (mockFetchError "Rate limit exceeded" 429)
           (Search "test" []) test_client
           (request_of test_client "https://api.mem0.ai/v1/memories/search/" "POST"
              (JSON_stringify (VObj [("query", VStr "test")])))
           (mkResponse 429 "Error" "Rate limit exceeded"
              (Rejected (JsError "SyntaxError" "Unexpected token"))));
    [left; reflexivity | reflexivity].
Defined.

Lemma Bounded_run {A : Type} net (p : Prog A) n :
  Bounded n p ->
  forall this log,
    (length (log_of (run net p this log)) <= length log + n)%nat.
Proof.
  induction 1 as [n a|n e|n k Hk IH|n f k Hk IH|n url options k Hk IH];
    intros this log; simpl; try lia.
  - apply IH.
  - apply IH.
  - rewrite fetchWithErrorHandling_settles.
    destruct (settled_result this url (net (length log))) as [v|e].
    + specialize (IH v this (log ++ [(mkRequest url (init_method options)
                   (obj_spread (headers this) (init_headers options))
                   (init_body options), net (length log))])%list).
      rewrite length_app in IH. simpl in IH. lia.
    + simpl. rewrite length_app. simpl. lia.
Qed.

Lemma Bounded_one_perform op :
  (forall params, op <> DeleteUsers params) -> Bounded 1 (perform op).
Proof.
  intros Hop. destruct op; try (now elim (Hop params));
    unfold_method; walk_body.
Qed.

(** X6.  Every operation other than [deleteUsers] calls [fetch] at most once:
    nothing is retried, whatever the network answers. *)
Theorem at_most_one_request :
  forall net op this,
    (forall params, op <> DeleteUsers params) ->
    (length (log_of (run net (perform op) this [])) <= 1)%nat.
Proof.
  intros net op this Hop.
  exact (Bounded_run net (perform op) 1 (Bounded_one_perform op Hop) this []).
Qed.

Lemma at_most_one_request_witness :
  (length (log_of (run (mockFetchError "Service Unavailable" 503)
                     (perform (Add [] [("user_id", VStr "alice")])) test_client []))
   <= 1)%nat.
Proof.
  apply (at_most_one_request (mockFetchError "Service Unavailable" 503)
           (Add [] [("user_id", VStr "alice")]) test_client).
  discriminate.
Defined.

Lemma PassThrough_run net (p : Prog Value) :
  PassThrough p ->
  forall this log,
    (log_of (run net p this log) = log
     /\ exists e, outcome_of (run net p this log) = Rejected e)
    \/ (exists request,
          log_of (run net p this log) = (log ++ [(request, net (length log))])%list
          /\ outcome_of (run net p this log)
             = settled_result this (req_url request) (net (length log))).
Proof.
  induction 1 as [e|k Hk IH|url options]; intros this log.
  - left. split; [reflexivity | now exists e].
  - apply IH.
  - right. rewrite run_Await_Ret. eexists. split; reflexivity.
Qed.

Lemma PassThrough_perform op :
  op <> Ping -> (forall params, op <> DeleteUsers params) -> PassThrough (perform op).
Proof.
  intros Hping Hdel. destruct op; try congruence; try (now elim (Hdel params));
    unfold_method; walk_body.
Qed.

(** X7.  Every operation other than [ping] and [deleteUsers] hands back what
    its request produced: after a response with a success status the call
    settles exactly as [response.json()] does, so the parsed body is returned
    untouched and a body that does not parse rejects the call. *)
Theorem responses_pass_through :
  forall net op this response,
    op <> Ping -> (forall params, op <> DeleteUsers params) ->
    log_of (run net (perform op) this []) <> [] ->
    net 0%nat = Fulfilled response ->
    ok response = true ->
    outcome_of (run net (perform op) this []) = json response.
Proof.
  intros net op this response Hping Hdel Hsent Hnet Hok.
  destruct (PassThrough_run net (perform op) (PassThrough_perform op Hping Hdel) this [])
    as [[Hlog _]|(request & _ & Hout)]; [contradiction|].
  rewrite Hout. cbn [length]. rewrite Hnet. unfold settled_result. now rewrite Hok.
Qed.

Lemma responses_pass_through_witness :
  let body := VArr [VObj [("id", VStr "mem_123"); ("memory", VStr "User likes coffee")]] in
  outcome_of (run (mockFetch body) (perform (Add [] [("user_id", VStr "alice")]))
                test_client [])
  = Fulfilled body.
Proof.
  intros body.
  apply (responses_pass_through (mockFetch body) (Add [] [("user_id", VStr "alice")])
           test_client (mkResponse 200 "OK" "" (Fulfilled body)));
    try discriminate; reflexivity.
Defined.

Lemma log_grows {A : Type} net (p : Prog A) :
  forall this log, (length log <= length (log_of (run net p this log)))%nat.
Proof.
  induction p as [a|e|k IH|g k IH|url options k IH]; intros this log; simpl;
    try lia.
  - apply IH.
  - apply IH.
  - rewrite fetchWithErrorHandling_settles.
    destruct (settled_result this url (net (length log))) as [v|e].
    + etransitivity; [|apply IH]. rewrite length_app. simpl. lia.
    + simpl. rewrite length_app. simpl. lia.
Qed.

Lemma FailsPlainly_run {A : Type} net (p : Prog A) :
  FailsPlainly p ->
  forall this log,
    log_of (run net p this log) = log ->
    exists name message, outcome_of (run net p this log) = Rejected (JsError name message).
Proof.
  induction 1 as [name message|k Hk IH|f k Hk IH|url options k];
    intros this log Hlog.
  - now exists name, message.
  - now apply IH.
  - now apply IH.
  - exfalso. apply (f_equal (@length _)) in Hlog. simpl in Hlog.
    rewrite fetchWithErrorHandling_settles in Hlog.
    destruct (settled_result this url (net (length log))) as [v|e].
    + match type of Hlog with
      | length (log_of (run net ?q ?t ?l)) = _ =>
          pose proof (log_grows net q t l) as Hg
      end.
      rewrite length_app in Hg. simpl in Hg. lia.
    + simpl in Hlog. rewrite length_app in Hlog. simpl in Hlog. lia.
Qed.

Lemma FailsPlainly_bind {A B : Type} (p : Prog A) (f : A -> Prog B) :
  FailsPlainly p -> FailsPlainly (bind p f).
Proof.
  induction 1; simpl; constructor; auto.
Qed.

Lemma FailsPlainly_perform op : FailsPlainly (perform op).
Proof.
  destruct op; unfold_method; walk_body.
Qed.

(** X8.  No operation returns without having called [fetch], and an operation
    that fails before calling [fetch] fails with an ordinary [Error], never
    with an [APIError]. *)
Theorem local_failures_are_plain_errors :
  forall net op this,
    log_of (run net (perform op) this []) = [] ->
    exists name message,
      outcome_of (run net (perform op) this []) = Rejected (JsError name message).
Proof.
  intros net op this Hlog.
  exact (FailsPlainly_run net (perform op) (FailsPlainly_perform op) this [] Hlog).
Qed.

Lemma local_failures_are_plain_errors_witness :
  exists name message,
    outcome_of (run (mockFetch VNull) (perform (CreateMemoryExport [])) test_client [])
    = Rejected (JsError name message).
Proof.
  apply (local_failures_are_plain_errors (mockFetch VNull) (CreateMemoryExport [])
           test_client).
  reflexivity.
Defined.

(* ------------------------------------------------------------------ *)
(** ** Well-formed objects *)

Section MoreObjectLemmas.
Context {V : Type}.
Implicit Types (o a b : Obj V) (k : string) (v : V).

Lemma obj_find_none_iff k o : obj_find k o = None <-> ~ In k (map fst o).
Proof.
  induction o as [|[k' v'] o IH]; simpl; [tauto|].
  destruct (String.eqb_spec k k') as [->|ne].
  - split; [discriminate | intros H; elim H; now left].
  - rewrite IH. split; [intros H [E|I]; [congruence | contradiction] | tauto].
Qed.

Lemma obj_set_fresh k v o : obj_find k o = None -> obj_set k v o = (o ++ [(k, v)])%list.
Proof.
  induction o as [|[k' v'] o IH]; simpl; [reflexivity|].
  destruct (String.eqb k k'); [discriminate|]. intros H. now rewrite IH.
Qed.

Lemma keys_obj_set k v o :
  forall k', In k' (map fst (obj_set k v o)) -> k' = k \/ In k' (map fst o).
Proof.
  induction o as [|[k1 v1] o IH]; simpl; intros k' H.
  - destruct H as [<-|[]]. now left.
  - destruct (String.eqb k k1); simpl in H.
    + destruct H as [<-|H]; auto.
    + destruct H as [<-|H]; auto. destruct (IH _ H); auto.
Qed.

Lemma NoDup_obj_set k v o : NoDup (map fst o) -> NoDup (map fst (obj_set k v o)).
Proof.
  induction o as [|[k1 v1] o IH]; simpl; intros H.
  - constructor; [intros [] | constructor].
  - inversion H as [|? ? Hnin Hnd]; subst.
    destruct (String.eqb_spec k k1) as [->|ne]; simpl.
    + now constructor.
    + constructor; [|now apply IH].
      intros Hin. destruct (keys_obj_set _ _ _ _ Hin); [congruence | contradiction].
Qed.

Lemma NoDup_obj_delete k o : NoDup (map fst o) -> NoDup (map fst (obj_delete k o)).
Proof.
  unfold obj_delete. induction o as [|[k1 v1] o IH]; simpl; intros H; [constructor|].
  inversion H as [|? ? Hnin Hnd]; subst.
  destruct (negb (String.eqb k k1)); simpl; [|now apply IH].
  constructor; [|now apply IH].
  intros Hin. apply Hnin. apply in_map_iff in Hin as ([k2 v2] & <- & Hf).
  apply filter_In in Hf as [Hf _]. now apply (in_map fst) in Hf.
Qed.

Lemma NoDup_obj_spread a b : NoDup (map fst a) -> NoDup (map fst (obj_spread a b)).
Proof.
  unfold obj_spread. revert a.
  induction b as [|[k v] b IH]; intros a H; simpl; [exact H|].
  apply IH. now apply NoDup_obj_set.
Qed.

(** Copying a well-formed object gives the object back. *)
Lemma obj_spread_copy a b :
  NoDup (map fst (a ++ b)) -> obj_spread a b = (a ++ b)%list.
Proof.
  unfold obj_spread. revert a.
  induction b as [|[k v] b IH]; intros a H; simpl; [now rewrite app_nil_r|].
  rewrite obj_set_fresh.
  - rewrite IH; rewrite <- app_assoc; [reflexivity | exact H].
  - apply obj_find_none_iff. rewrite map_app in H.
    apply NoDup_remove_2 in H. intros Hin. apply H. apply in_or_app. now left.
Qed.

Lemma obj_find_spread k a b :
  NoDup (map fst b) ->
  obj_find k (obj_spread a b)
  = match obj_find k b with Some v => Some v | None => obj_find k a end.
Proof.
  unfold obj_spread. revert a.
  induction b as [|[k1 v1] b IH]; intros a H; simpl; [reflexivity|].
  inversion H as [|? ? Hnin Hnd]; subst. rewrite (IH _ Hnd).
  destruct (String.eqb_spec k k1) as [->|ne].
  - apply obj_find_none_iff in Hnin. rewrite Hnin. apply obj_find_set_same.
  - destruct (obj_find k b); [reflexivity|].
    apply obj_find_set_other. congruence.
Qed.

Lemma obj_delete_absent k o : obj_find k o = None -> obj_delete k o = o.
Proof.
  unfold obj_delete. induction o as [|[k1 v1] o IH]; simpl; [reflexivity|].
  destruct (String.eqb k k1); [discriminate|]. intros H. simpl. now rewrite IH.
Qed.
End MoreObjectLemmas.

Lemma prepareParams_fold (options : Obj Value) :
  forall acc : Obj string,
    (forall k, In k (map fst options) -> obj_find k acc = None) ->
    NoDup (map fst options) ->
    fold_left
      (fun params kv =>
         if negb (is_null (snd kv)) && negb (is_undefined (snd kv))
         then obj_set (fst kv) (ToString (snd kv)) params
         else params) options acc
    = (acc ++ map (fun kv => (fst kv, ToString (snd kv))) (filter is_given options))%list.
Proof.
  induction options as [|[k v] options IH]; intros acc Hacc Hnd; simpl;
    [now rewrite app_nil_r|].
  inversion Hnd as [|? ? Hnin Hnd']; subst.
  unfold is_given at 1. simpl.
  destruct (negb (is_null v) && negb (is_undefined v)); simpl.
  - rewrite IH; [|intros k' Hk'|exact Hnd'].
    + rewrite obj_set_fresh by (apply Hacc; now left).
      now rewrite <- app_assoc.
    + rewrite obj_find_set_other by (intros ->; contradiction).
      apply Hacc. now right.
  - apply IH; [|exact Hnd']. intros k' Hk'. apply Hacc. now right.
Qed.

(* ------------------------------------------------------------------ *)
(** ** Options on the wire *)

(** X9.  For an options object (distinct keys), [#prepareParams] keeps the
    options that are neither [null] nor [undefined], in their order, each
    with its value turned into a string; so a [false] or a [0] is sent and a
    [null] is not. *)
Theorem prepareParams_keeps_given_options :
  forall options,
    NoDup (map fst options) ->
    MemoryClient.prepareParams options
    = map (fun kv => (fst kv, ToString (snd kv))) (filter is_given options).
Proof.
  intros options Hnd. unfold MemoryClient.prepareParams.
  now rewrite prepareParams_fold.
Qed.

Lemma prepareParams_keeps_given_options_witness :
  MemoryClient.prepareParams
    [("user_id", VStr "alice"); ("agent_id", VNull); ("infer", VBool false);
     ("run_id", VUndefined); ("timestamp", VNum 0)]
  = [("user_id", "alice"); ("infer", "false"); ("timestamp", "0")].
Proof.
  rewrite (prepareParams_keeps_given_options
             [("user_id", VStr "alice"); ("agent_id", VNull); ("infer", VBool false);
              ("run_id", VUndefined); ("timestamp", VNum 0)]);
    [reflexivity|].
  repeat constructor; simpl; intuition discriminate.
Defined.

Lemma NoDup_addOrgProject this (options : Obj Value) :
  NoDup (map fst (MemoryClient.addOrgProjectToOptions this options)).
Proof.
  unfold MemoryClient.addOrgProjectToOptions.
  assert (H0 : NoDup (map fst (obj_spread [] options)))
    by (apply NoDup_obj_spread; constructor).
  destruct (negb (is_null (organizationName this)) && negb (is_null (projectName this)));
    destruct (negb (is_null (organizationId this)) && negb (is_null (projectId this)));
    repeat first [apply NoDup_obj_delete | apply NoDup_obj_set]; exact H0.
Qed.

Lemma obj_find_addOrgProject_other this k (options : Obj Value) :
  NoDup (map fst options) ->
  ~ In k scope_keys ->
  obj_find k (MemoryClient.addOrgProjectToOptions this options) = obj_find k options.
Proof.
  intros Hnd Hk.
  assert (n1 : "org_id" <> k) by (intros <-; apply Hk; simpl; tauto).
  assert (n2 : "project_id" <> k) by (intros <-; apply Hk; simpl; tauto).
  assert (n3 : "org_name" <> k) by (intros <-; apply Hk; simpl; tauto).
  assert (n4 : "project_name" <> k) by (intros <-; apply Hk; simpl; tauto).
  assert (H0 : obj_find k (obj_spread [] options) = obj_find k options).
  { rewrite obj_find_spread by exact Hnd. now destruct (obj_find k options). }
  unfold MemoryClient.addOrgProjectToOptions.
  destruct (negb (is_null (organizationName this)) && negb (is_null (projectName this)));
    destruct (negb (is_null (organizationId this)) && negb (is_null (projectId this)));
    repeat first [ rewrite obj_find_delete_other by assumption
                 | rewrite obj_find_set_other by assumption ];
    exact H0.
Qed.

(** X10.  Merging the client's scope into an options object (distinct keys)
    leaves every option other than [org_id], [project_id], [org_name] and
    [project_name] as the caller gave it, and yields an object with distinct
    keys; a client with neither pair complete returns the options as they
    are. *)
Theorem scope_merge_keeps_other_options :
  forall this options,
    NoDup (map fst options) ->
    let merged := MemoryClient.addOrgProjectToOptions this options in
    (forall k, ~ In k scope_keys -> obj_find k merged = obj_find k options)
    /\ NoDup (map fst merged)
    /\ ((is_null (organizationName this) || is_null (projectName this)) = true ->
        (is_null (organizationId this) || is_null (projectId this)) = true ->
        merged = options).
Proof.
  intros this options Hnd merged. subst merged. split; [|split].
  - intros k Hk. now apply obj_find_addOrgProject_other.
  - apply NoDup_addOrgProject.
  - intros Hn Hi. unfold MemoryClient.addOrgProjectToOptions.
    rewrite <- !Bool.negb_orb, Hn, Hi. cbn [negb].
    now rewrite obj_spread_copy.
Qed.

Lemma scope_merge_keeps_other_options_witness :
  let options := [("user_id", VStr "alice"); ("org_id", VStr "mine")] in
  let scoped := new_MemoryClient "test-key" None VUndefined VUndefined
                  (VStr "org_123") (VStr "proj_456") in
  obj_find "user_id" (MemoryClient.addOrgProjectToOptions scoped options)
    = Some (VStr "alice")
  /\ MemoryClient.addOrgProjectToOptions test_client options = options.
Proof.
  intros options scoped.
  assert (Hnd : NoDup (map fst options))
    by (repeat constructor; simpl; intuition discriminate).
  split.
  - rewrite (proj1 (scope_merge_keeps_other_options scoped options Hnd));
      [reflexivity | simpl; intuition discriminate].
  - apply (proj2 (proj2 (scope_merge_keeps_other_options test_client options Hnd)));
      reflexivity.
Defined.

(** X11.  A client with the name pair but without a complete id pair puts
    [org_name] and [project_name] into the options, over whatever the caller
    put there, and leaves [org_id] and [project_id] as the caller gave them:
    half an id pair is never sent. *)
Theorem name_pair_is_sent_without_id_pair :
  forall this options,
    NoDup (map fst options) ->
    organizationName this <> VNull ->
    projectName this <> VNull ->
    organizationId this = VNull \/ projectId this = VNull ->
    let merged := MemoryClient.addOrgProjectToOptions this options in
    obj_find "org_name" merged = Some (organizationName this)
    /\ obj_find "project_name" merged = Some (projectName this)
    /\ obj_find "org_id" merged = obj_find "org_id" options
    /\ obj_find "project_id" merged = obj_find "project_id" options.
Proof.
  intros this options Hnd Hon Hpn Hid merged. subst merged.
  unfold MemoryClient.addOrgProjectToOptions.
  assert (E1 : is_null (organizationName this) = false)
    by (destruct (organizationName this); try reflexivity; congruence).
  assert (E2 : is_null (projectName this) = false)
    by (destruct (projectName this); try reflexivity; congruence).
  assert (E3 : negb (is_null (organizationId this)) && negb (is_null (projectId this))
               = false).
  { destruct Hid as [-> | ->]; [reflexivity | apply andb_false_r]. }
  rewrite E1, E2, E3. cbn [negb andb].
  assert (H0 : forall k, obj_find k (obj_spread [] options) = obj_find k options).
  { intros k. rewrite obj_find_spread by exact Hnd. now destruct (obj_find k options). }
  repeat split.
  - rewrite obj_find_set_other by discriminate. apply obj_find_set_same.
  - apply obj_find_set_same.
  - rewrite !obj_find_set_other by discriminate. apply H0.
  - rewrite !obj_find_set_other by discriminate. apply H0.
Qed.

Lemma name_pair_is_sent_without_id_pair_witness :
  let this := new_MemoryClient "test-key" None (VStr "acme") (VStr "demo")
                (VStr "org_123") VUndefined in
  let merged := MemoryClient.addOrgProjectToOptions this [("user_id", VStr "alice")] in
  obj_find "org_name" merged = Some (VStr "acme")
  /\ obj_find "project_name" merged = Some (VStr "demo")
  /\ obj_find "org_id" merged = None
  /\ obj_find "project_id" merged = None.
Proof.
  intros this merged.
  apply (name_pair_is_sent_without_id_pair this [("user_id", VStr "alice")]);
    try discriminate.
  - repeat constructor; simpl; intuition discriminate.
  - right. reflexivity.
Defined.

(** X12.  [add] always posts to [/v1/memories/], whatever [api_version] says.
    For options with distinct keys and no [messages] key, the JSON body holds
    the messages under [messages]; a truthy [api_version] is copied, as a
    string, over [version]; every other option outside the scope keys is
    sent as given. *)
Theorem add_posts_messages_to_v1 :
  forall net this messages options,
    NoDup (map fst options) ->
    obj_find "messages" options = None ->
    exists payload,
      requests (log_of (run net (MemoryClient.add messages options) this []))
      = [request_of this (host this ++ "/v1/memories/") "POST"
           (JSON_stringify (VObj payload))]
      /\ obj_find "messages" payload = Some (VArr messages)
      /\ (truthy (obj_get "api_version" options) = true ->
            obj_find "version" payload
            = Some (VStr (ToString (obj_get "api_version" options))))
      /\ (truthy (obj_get "api_version" options) = false ->
            obj_find "version" payload = obj_find "version" options)
      /\ (forall k, ~ In k scope_keys -> k <> "messages" -> k <> "version" ->
            obj_find k payload = obj_find k options).
Proof.
  intros net this messages options Hnd Hmsg.
  unfold MemoryClient.add. rewrite run_This. cbv zeta. rewrite run_Await_Ret.
  eexists. split; [reflexivity|].
  set (opts := MemoryClient.addOrgProjectToOptions this options).
  assert (Hfr : forall k, ~ In k scope_keys -> obj_find k opts = obj_find k options)
    by (intros k Hk; now apply obj_find_addOrgProject_other).
  assert (Hnd0 : NoDup (map fst opts)) by apply NoDup_addOrgProject.
  assert (Hav : obj_get "api_version" opts = obj_get "api_version" options).
  { unfold obj_get. rewrite Hfr; [reflexivity | simpl; intuition discriminate]. }
  rewrite Hav. unfold MemoryClient.preparePayload.
  destruct (truthy (obj_get "api_version" options)) eqn:Et.
  - assert (Hnd1 : NoDup (map fst (obj_set "version"
                      (VStr (ToString (obj_get "api_version" options))) opts)))
      by now apply NoDup_obj_set.
    repeat split; try discriminate.
    + rewrite obj_find_spread by exact Hnd1.
      rewrite obj_find_set_other by discriminate.
      rewrite Hfr by (simpl; intuition discriminate). now rewrite Hmsg.
    + intros _. rewrite obj_find_spread by exact Hnd1.
      now rewrite obj_find_set_same.
    + intros k Hk Hm Hv. rewrite obj_find_spread by exact Hnd1.
      rewrite obj_find_set_other by congruence. rewrite (Hfr k Hk).
      destruct (obj_find k options); [reflexivity|]. simpl.
      destruct (String.eqb_spec k "messages"); [contradiction | reflexivity].
  - repeat split; try discriminate.
    + rewrite obj_find_spread by exact Hnd0.
      rewrite Hfr by (simpl; intuition discriminate). now rewrite Hmsg.
    + intros _. rewrite obj_find_spread by exact Hnd0.
      rewrite Hfr by (simpl; intuition discriminate).
      now destruct (obj_find "version" options).
    + intros k Hk Hm Hv. rewrite obj_find_spread by exact Hnd0. rewrite (Hfr k Hk).
      destruct (obj_find k options); [reflexivity|]. simpl.
      destruct (String.eqb_spec k "messages"); [contradiction | reflexivity].
Qed.

Lemma add_posts_messages_to_v1_witness :
  exists payload,
    requests (log_of (run (mockFetch (VArr []))
                        (MemoryClient.add [VObj [("role", VStr "user"); ("content", VStr "hi")]]
                           [("user_id", VStr "alice"); ("api_version", VStr "v2")])
                        test_client []))
    = [request_of test_client "https://api.mem0.ai/v1/memories/" "POST"
         (JSON_stringify (VObj payload))]
    /\ obj_find "version" payload = Some (VStr "v2").
Proof.
  destruct (add_posts_messages_to_v1 (mockFetch (VArr [])) test_client
              [VObj [("role", VStr "user"); ("content", VStr "hi")]]
              [("user_id", VStr "alice"); ("api_version", VStr "v2")])
    as (payload & Hreq & _ & Hv & _).
  - repeat constructor; simpl; intuition discriminate.
  - reflexivity.
  - exists payload. split; [exact Hreq | now apply Hv].
Defined.

(** X13.  For options without [api_version], [page] and [page_size],
    [deleteAll] issues its DELETE to the very URL from which [getAll] reads
    with GET: what is listed is what is deleted. *)
Theorem deleteAll_addresses_what_getAll_lists :
  forall net this options,
    obj_find "api_version" options = None ->
    obj_find "page" options = None ->
    obj_find "page_size" options = None ->
    exists url,
      map (fun r => (req_method r, req_url r))
        (requests (log_of (run net (MemoryClient.getAll options) this [])))
      = [("GET", url)]
      /\ map (fun r => (req_method r, req_url r))
           (requests (log_of (run net (MemoryClient.deleteAll options) this [])))
         = [("DELETE", url)].
Proof.
  intros net this options Hv Hp Hs.
  unfold MemoryClient.getAll, MemoryClient.deleteAll, obj_rest, obj_get.
  rewrite Hv, Hp, Hs. cbn [fold_left].
  rewrite (obj_delete_absent "api_version") by exact Hv.
  rewrite (obj_delete_absent "page") by exact Hp.
  rewrite (obj_delete_absent "page_size") by exact Hs.
  rewrite !run_This. cbv zeta. cbn [is_string MemoryClient.paginationParams truthy andb].
  cbn [String.eqb negb]. rewrite !run_Await_Ret.
  eexists. split; reflexivity.
Qed.

Lemma deleteAll_addresses_what_getAll_lists_witness :
  exists url,
    map (fun r => (req_method r, req_url r))
      (requests (log_of (run (mockFetch (VArr []))
                           (MemoryClient.getAll [("user_id", VStr "alice")]) test_client [])))
    = [("GET", url)]
    /\ map (fun r => (req_method r, req_url r))
         (requests (log_of (run (mockFetch (VArr []))
                              (MemoryClient.deleteAll [("user_id", VStr "alice")])
                              test_client [])))
       = [("DELETE", url)].
Proof.
  apply (deleteAll_addresses_what_getAll_lists (mockFetch (VArr [])) test_client
           [("user_id", VStr "alice")]); reflexivity.
Defined.

(** X14.  [search] sends everything in the JSON body and nothing in the URL:
    for options with distinct keys and no [query] key, the body holds the
    query under [query], never holds [api_version], and holds every other
    option outside the scope keys, [page] and [page_size] included, as
    given. *)
Theorem search_sends_options_in_body :
  forall net this query options,
    NoDup (map fst options) ->
    obj_find "query" options = None ->
    exists endpoint payload,
      requests (log_of (run net (MemoryClient.search query options) this []))
      = [request_of this (host this ++ endpoint) "POST" (JSON_stringify (VObj payload))]
      /\ (endpoint = "/v1/memories/search/" \/ endpoint = "/v2/memories/search/")
      /\ obj_find "query" payload = Some (VStr query)
      /\ obj_find "api_version" payload = None
      /\ (forall k, ~ In k scope_keys -> k <> "api_version" -> k <> "query" ->
            obj_find k payload = obj_find k options).
Proof.
  intros net this query options Hnd Hq.
  unfold MemoryClient.search. rewrite run_This. cbv zeta. rewrite run_Await_Ret.
  do 2 eexists. split; [reflexivity|].
  split; [destruct (is_string "v2" (obj_get "api_version" options)); auto|].
  unfold obj_rest. cbn [fold_left].
  set (others := obj_delete "api_version" options).
  assert (Hndo : NoDup (map fst others)) by now apply NoDup_obj_delete.
  set (opts := MemoryClient.addOrgProjectToOptions this others).
  assert (Hfr : forall k, ~ In k scope_keys -> obj_find k opts = obj_find k others)
    by (intros k Hk; now apply obj_find_addOrgProject_other).
  assert (Hnd0 : NoDup (map fst opts)) by apply NoDup_addOrgProject.
  repeat split.
  - rewrite obj_find_spread by exact Hnd0.
    rewrite Hfr by (simpl; intuition discriminate).
    unfold others. rewrite obj_find_delete_other by discriminate. now rewrite Hq.
  - rewrite obj_find_spread by exact Hnd0.
    rewrite Hfr by (simpl; intuition discriminate).
    unfold others. now rewrite obj_find_delete_same.
  - intros k Hk Hv Hqk. rewrite obj_find_spread by exact Hnd0. rewrite (Hfr k Hk).
    unfold others. rewrite obj_find_delete_other by congruence.
    destruct (obj_find k options); [reflexivity|]. simpl.
    destruct (String.eqb_spec k "query"); [contradiction | reflexivity].
Qed.

Lemma search_sends_options_in_body_witness :
  exists endpoint payload,
    requests (log_of (run (mockFetch (VArr []))
                        (MemoryClient.search "hobbies"
                           [("api_version", VStr "v2"); ("page", VNum 2)])
                        test_client []))
    = [request_of test_client ("https://api.mem0.ai" ++ endpoint) "POST"
         (JSON_stringify (VObj payload))]
    /\ obj_find "page" payload = Some (VNum 2)
    /\ obj_find "api_version" payload = None.
Proof.
  destruct (search_sends_options_in_body (mockFetch (VArr [])) test_client "hobbies"
              [("api_version", VStr "v2"); ("page", VNum 2)])
    as (endpoint & payload & Hreq & _ & _ & Hv & Hother).
  - repeat constructor; simpl; intuition discriminate.
  - reflexivity.
  - exists endpoint, payload. split; [exact Hreq|]. split; [|exact Hv].
    rewrite Hother; [reflexivity | simpl; intuition discriminate | discriminate
                    | discriminate].
Defined.

(* ------------------------------------------------------------------ *)
(** ** Project settings and exports *)

(** X15.  [getProject] and [updateProject] never reach the network unless
    both [organizationId] and [projectId] are truthy: otherwise each is
    rejected with its own validation error and the log stays empty.  With
    both set, [updateProject] issues one PATCH to the project's URL with the
    payload as JSON body. *)
Theorem project_methods_need_both_ids :
  forall net this options prompts,
    let project_url :=
      host this ++ "/api/v1/orgs/organizations/" ++ ToString (organizationId this)
        ++ "/projects/" ++ ToString (projectId this) ++ "/" in
    (truthy (organizationId this) && truthy (projectId this) = false ->
       run net (MemoryClient.getProject options) this []
       = (Rejected (JsError "Error"
            "organizationId and projectId must be set to access project settings"),
          this, [])
       /\ run net (MemoryClient.updateProject prompts) this []
          = (Rejected (JsError "Error"
               "organizationId and projectId must be set to update project settings"),
             this, []))
    /\ (truthy (organizationId this) && truthy (projectId this) = true ->
          requests (log_of (run net (MemoryClient.updateProject prompts) this []))
          = [request_of this project_url "PATCH" (JSON_stringify (VObj prompts))]
          /\ (obj_find "fields" options = None ->
                requests (log_of (run net (MemoryClient.getProject options) this []))
                = [request_of this (project_url ++ "?") "GET" None])).
Proof.
  intros net this options prompts project_url. subst project_url. split.
  - intros H. unfold MemoryClient.getProject, MemoryClient.updateProject.
    rewrite !run_This, H. split; reflexivity.
  - intros H. unfold MemoryClient.getProject, MemoryClient.updateProject.
    rewrite !run_This, H. cbn [negb]. rewrite run_Await_Ret. split; [reflexivity|].
    intros Hf. unfold obj_get. rewrite Hf. cbn [bind]. rewrite run_Await_Ret.
    unfold requests, log_of, request_of. cbn [snd map app fst].
    cbn [URLSearchParams_toString map join].
    now rewrite append_nil_r, !append_assoc.
Qed.

Lemma project_methods_need_both_ids_witness :
  run (mockFetch VNull) (MemoryClient.getProject []) test_client []
  = (Rejected (JsError "Error"
       "organizationId and projectId must be set to access project settings"),
     test_client, [])
  /\ run (mockFetch VNull) (MemoryClient.updateProject []) test_client []
     = (Rejected (JsError "Error"
          "organizationId and projectId must be set to update project settings"),
        test_client, []).
Proof.
  apply (proj1 (project_methods_need_both_ids (mockFetch VNull) test_client [] [])).
  reflexivity.
Defined.

Lemma export_payload_lookup (data : Obj Value) (org project : Value) :
  NoDup (map fst data) ->
  let payload := obj_set "project_id" project (obj_set "org_id" org (obj_spread [] data)) in
  obj_find "org_id" payload = Some org
  /\ obj_find "project_id" payload = Some project
  /\ (forall k, k <> "org_id" -> k <> "project_id" ->
        obj_find k payload = obj_find k data).
Proof.
  intros Hnd payload. subst payload. repeat split.
  - rewrite obj_find_set_other by discriminate. apply obj_find_set_same.
  - apply obj_find_set_same.
  - intros k H1 H2. rewrite !obj_find_set_other by congruence.
    rewrite obj_find_spread by exact Hnd. now destruct (obj_find k data).
Qed.

(** X16.  [createMemoryExport] is rejected locally, with no request, unless
    both [filters] and [schema] are truthy.  Otherwise it posts to
    [/v1/exports/] a body in which [org_id] and [project_id] are the client's
    ids as strings, or [null] for an id the client lacks, replacing whatever
    the caller put under these keys; the rest of the payload is sent as
    given. *)
Theorem createMemoryExport_needs_filters_and_schema :
  forall net this data,
    NoDup (map fst data) ->
    let r := run net (MemoryClient.createMemoryExport data) this [] in
    (truthy (obj_get "filters" data) && truthy (obj_get "schema" data) = false ->
       r = (Rejected (JsError "Error" "Missing filters or schema"), this, []))
    /\ (truthy (obj_get "filters" data) && truthy (obj_get "schema" data) = true ->
          exists payload,
            requests (log_of r)
            = [request_of this (host this ++ "/v1/exports/") "POST"
                 (JSON_stringify (VObj payload))]
            /\ obj_find "org_id" payload = Some (export_id (organizationId this) VNull)
            /\ obj_find "project_id" payload = Some (export_id (projectId this) VNull)
            /\ (forall k, k <> "org_id" -> k <> "project_id" ->
                  obj_find k payload = obj_find k data)).
Proof.
  intros net this data Hnd r. subst r. unfold MemoryClient.createMemoryExport.
  rewrite <- Bool.negb_andb. split; intros H; rewrite H; cbn [negb].
  - reflexivity.
  - rewrite run_This. cbv zeta. rewrite run_Await_Ret.
    eexists. split; [reflexivity|].
    exact (export_payload_lookup data _ _ Hnd).
Qed.

Lemma createMemoryExport_needs_filters_and_schema_witness :
  let data := [("filters", VObj [("user_id", VStr "alice")]);
               ("schema", VObj [("format", VStr "json")]);
               ("org_id", VStr "someone-else")] in
  run (mockFetch VNull) (MemoryClient.createMemoryExport [("schema", VObj [])])
      test_client []
  = (Rejected (JsError "Error" "Missing filters or schema"), test_client, [])
  /\ exists payload,
       requests (log_of (run (mockFetch VNull) (MemoryClient.createMemoryExport data)
                           test_client []))
       = [request_of test_client "https://api.mem0.ai/v1/exports/" "POST"
            (JSON_stringify (VObj payload))]
       /\ obj_find "org_id" payload = Some VNull.
Proof.
  intros data. split.
  - apply (proj1 (createMemoryExport_needs_filters_and_schema (mockFetch VNull)
                    test_client [("schema", VObj [])]
                    ltac:(repeat constructor; simpl; intuition discriminate))).
    reflexivity.
  - destruct (proj2 (createMemoryExport_needs_filters_and_schema (mockFetch VNull)
                       test_client data
                       ltac:(repeat constructor; simpl; intuition discriminate))
                    eq_refl)
      as (payload & Hreq & Horg & _).
    exists payload. split; [exact Hreq | exact Horg].
Defined.

(** X17.  [getMemoryExport] is rejected locally, with no request, only when
    [memory_export_id] and [filters] are both falsy.  Otherwise it posts to
    [/v1/exports/get/] a body in which [org_id] and [project_id] are the
    client's ids as strings, or the empty string for an id the client lacks,
    replacing whatever the caller put under these keys. *)
Theorem getMemoryExport_needs_id_or_filters :
  forall net this data,
    NoDup (map fst data) ->
    let r := run net (MemoryClient.getMemoryExport data) this [] in
    (truthy (obj_get "memory_export_id" data) || truthy (obj_get "filters" data) = false ->
       r = (Rejected (JsError "Error" "Missing memory_export_id or filters"), this, []))
    /\ (truthy (obj_get "memory_export_id" data) || truthy (obj_get "filters" data) = true ->
          exists payload,
            requests (log_of r)
            = [request_of this (host this ++ "/v1/exports/get/") "POST"
                 (JSON_stringify (VObj payload))]
            /\ obj_find "org_id" payload
               = Some (export_id (organizationId this) (VStr ""))
            /\ obj_find "project_id" payload
               = Some (export_id (projectId this) (VStr ""))
            /\ (forall k, k <> "org_id" -> k <> "project_id" ->
                  obj_find k payload = obj_find k data)).
Proof.
  intros net this data Hnd r. subst r. unfold MemoryClient.getMemoryExport.
  rewrite <- Bool.negb_orb. split; intros H; rewrite H; cbn [negb].
  - reflexivity.
  - rewrite run_This. cbv zeta. rewrite run_Await_Ret.
    eexists. split; [reflexivity|].
    exact (export_payload_lookup data _ _ Hnd).
Qed.

Lemma getMemoryExport_needs_id_or_filters_witness :
  let data := [("memory_export_id", VStr "exp_123")] in
  run (mockFetch VNull) (MemoryClient.getMemoryExport []) test_client []
  = (Rejected (JsError "Error" "Missing memory_export_id or filters"), test_client, [])
  /\ exists payload,
       requests (log_of (run (mockFetch VNull) (MemoryClient.getMemoryExport data)
                           test_client []))
       = [request_of test_client "https://api.mem0.ai/v1/exports/get/" "POST"
            (JSON_stringify (VObj payload))]
       /\ obj_find "org_id" payload = Some (VStr "").
Proof.
  intros data. split.
  - apply (proj1 (getMemoryExport_needs_id_or_filters (mockFetch VNull) test_client []
                    ltac:(constructor))).
    reflexivity.
  - destruct (proj2 (getMemoryExport_needs_id_or_filters (mockFetch VNull) test_client
                       data ltac:(repeat constructor; simpl; intuition discriminate))
                    eq_refl)
      as (payload & Hreq & Horg & _).
    exists payload. split; [exact Hreq | exact Horg].
Defined.

(* ------------------------------------------------------------------ *)
(** ** Learning the scope *)

(** X18.  A [ping] that is rejected, for whatever reason, leaves the client
    exactly as it was. *)
Theorem failed_ping_changes_nothing :
  forall net this log error,
    outcome_of (run net MemoryClient.ping this log) = Rejected error ->
    client_of (run net MemoryClient.ping this log) = this.
Proof.
  intros net this log error.
  destruct (net (length log)) as [response|err] eqn:Hnet.
  2:{ unfold MemoryClient.ping. rewrite run_This. cbn [run].
      rewrite fetchWithErrorHandling_settles, Hnet. unfold settled_result.
      now destruct (is_AbortError err). }
  destruct (ok response) eqn:Hok.
  2:{ unfold MemoryClient.ping. rewrite run_This. cbn [run].
      rewrite fetchWithErrorHandling_settles, Hnet. unfold settled_result.
      now rewrite Hok. }
  destruct (json response) as [body|e] eqn:Hjson.
  2:{ unfold MemoryClient.ping. rewrite run_This. cbn [run].
      rewrite fetchWithErrorHandling_settles, Hnet. unfold settled_result.
      now rewrite Hok, Hjson. }
  destruct (run_ping net this log response body Hnet Hok Hjson) as [log' ->].
  destruct (negb (is_object_value body)); [reflexivity|].
  destruct (negb (is_string "ok" (prop "status" body))); [reflexivity|].
  cbv zeta. discriminate.
Qed.

Lemma failed_ping_changes_nothing_witness :
  client_of (run invalid_key_network MemoryClient.ping test_client []) = test_client.
Proof.
  apply (failed_ping_changes_nothing invalid_key_network test_client []
           (APIError 401 "API request failed with status 401: Invalid API key")).
  reflexivity.
Defined.

(** X19.  A successful [ping] fills in what is missing: an id the client
    lacks (falsy) takes the truthy value the body supplies under [org_id]
    (resp. [project_id]), and an id the body does not supply stays as it
    was. *)
Theorem successful_ping_learns_missing_ids :
  forall net this log response body,
    net (length log) = Fulfilled response ->
    ok response = true ->
    json response = Fulfilled body ->
    is_object_value body = true ->
    prop "status" body = VStr "ok" ->
    let this' := client_of (run net MemoryClient.ping this log) in
    organizationId this'
    = (if truthy (prop "org_id" body) && negb (truthy (organizationId this))
       then prop "org_id" body else organizationId this)
    /\ projectId this'
       = (if truthy (prop "project_id" body) && negb (truthy (projectId this))
          then prop "project_id" body else projectId this).
Proof.
  intros net this log response body Hnet Hok Hjson Hobj Hst this'. subst this'.
  destruct (run_ping net this log response body Hnet Hok Hjson) as [log' ->].
  rewrite Hobj, Hst. cbn [negb is_string]. rewrite String.eqb_refl. cbv zeta.
  destruct (truthy (prop "org_id" body) && negb (truthy (organizationId this)));
    cbn [projectId set_organizationId];
    destruct (truthy (prop "project_id" body) && negb (truthy (projectId this)));
    split; reflexivity.
Qed.

Lemma successful_ping_learns_missing_ids_witness :
  organizationId (client_of (run learning_network MemoryClient.ping test_client []))
    = VStr "org_1"
  /\ projectId (client_of (run learning_network MemoryClient.ping test_client []))
     = VStr "proj_1".
Proof.
  apply (successful_ping_learns_missing_ids learning_network test_client []
           (mkResponse 200 "OK" ""
              (Fulfilled (VObj [("status", VStr "ok"); ("org_id", VStr "org_1");
                                ("project_id", VStr "proj_1")])))
           (VObj [("status", VStr "ok"); ("org_id", VStr "org_1");
                  ("project_id", VStr "proj_1")]));
    reflexivity.
Defined.

(** X20.  [ping] then [getProject]: a client without ids cannot read the
    project settings, but after a successful [ping] that supplied both ids
    the same call goes out, to the URL built from the learned ids. *)
Theorem ping_enables_project_access :
  forall net this response body,
    organizationId this = VNull ->
    projectId this = VNull ->
    net 0%nat = Fulfilled response ->
    ok response = true ->
    json response = Fulfilled body ->
    is_object_value body = true ->
    prop "status" body = VStr "ok" ->
    truthy (prop "org_id" body) = true ->
    truthy (prop "project_id" body) = true ->
    let pinged := run net MemoryClient.ping this [] in
    log_of (run net (MemoryClient.getProject []) this []) = []
    /\ map req_url
         (requests (log_of (run net (MemoryClient.getProject [])
                              (client_of pinged) (log_of pinged))))
       = [host this ++ "/v1/ping/";
          host this ++ "/api/v1/orgs/organizations/" ++ ToString (prop "org_id" body)
            ++ "/projects/" ++ ToString (prop "project_id" body) ++ "/?"].
Proof.
  intros net this response body Horg Hproj Hnet Hok Hjson Hobj Hst Ho Hp pinged.
  split.
  - unfold MemoryClient.getProject. rewrite run_This, Horg. reflexivity.
  - subst pinged. unfold MemoryClient.ping. rewrite run_This. cbn [run].
    rewrite fetchWithErrorHandling_settles. cbn [length]. rewrite Hnet.
    unfold settled_result. rewrite Hok, Hjson.
    unfold is_object_value in Hobj. rewrite <- Bool.negb_andb, Hobj, Hst.
    cbn [negb is_string]. rewrite String.eqb_refl. cbn [negb].
    rewrite run_bind, run_This, Ho, Horg. cbn [truthy negb andb run].
    rewrite run_bind, run_This. cbn [projectId set_organizationId].
    rewrite Hp, Hproj. cbn [truthy negb andb run client_of log_of fst snd].
    unfold MemoryClient.getProject. rewrite run_This.
    cbn [organizationId projectId set_projectId set_organizationId].
    rewrite Ho, Hp. cbn [andb negb obj_get obj_find bind].
    rewrite run_Await_Ret. reflexivity.
Qed.

Lemma ping_enables_project_access_witness :
  let pinged := run learning_network MemoryClient.ping test_client [] in
  log_of (run learning_network (MemoryClient.getProject []) test_client []) = []
  /\ map req_url
       (requests (log_of (run learning_network (MemoryClient.getProject [])
                            (client_of pinged) (log_of pinged))))
     = ["https://api.mem0.ai/v1/ping/";
        "https://api.mem0.ai/api/v1/orgs/organizations/org_1/projects/proj_1/?"].
Proof.
  apply (ping_enables_project_access learning_network test_client
           (mkResponse 200 "OK" ""
              (Fulfilled (VObj [("status", VStr "ok"); ("org_id", VStr "org_1");
                                ("project_id", VStr "proj_1")])))
           (VObj [("status", VStr "ok"); ("org_id", VStr "org_1");
                  ("project_id", VStr "proj_1")]));
    reflexivity.
Defined.

(* ------------------------------------------------------------------ *)
(** ** More on deleteUsers *)

Lemma run_map_entities_null net this log results :
  forallb (fun entity => negb (is_nullish entity)) results = false ->
  exists message,
    run net (MemoryClient.map_entities results) this log
    = (Rejected (JsError "TypeError" message), this, log).
Proof.
  induction results as [|entity rest IH]; simpl; [discriminate|].
  destruct (is_nullish entity) eqn:He; simpl.
  - intros _. eexists. reflexivity.
  - intros H. destruct (IH H) as [message Hm]. exists message.
    now rewrite run_bind, Hm.
Qed.

Lemma deleteUsers_listing_without_array net this params response listing :
  no_identifier params ->
  net 0%nat = Fulfilled response ->
  ok response = true ->
  json response = Fulfilled listing ->
  (forall results, prop "results" listing <> VArr results) ->
  exists message,
    run net (MemoryClient.deleteUsers params) this []
    = (Rejected (JsError "TypeError" message), this,
       [(users_request this, Fulfilled response)]).
Proof.
  intros (Hu & Ha & Hp & Hr) Hnet Hok Hjson Hbad.
  unfold MemoryClient.deleteUsers. cbv zeta.
  rewrite run_bind, Hu, Ha, Hp, Hr, run_bind, run_users.
  cbn [length app]. rewrite Hnet. unfold settled_result. rewrite Hok, Hjson.
  unfold MemoryClient.entities_to_delete.
  destruct (is_nullish listing); [eexists; reflexivity|].
  destruct (prop "results" listing) as [| | | | |results|] eqn:Hres;
    try (eexists; reflexivity).
  elim (Hbad results). reflexivity.
Qed.

Lemma deleteUsers_listing_with_null net this params response listing results :
  no_identifier params ->
  net 0%nat = Fulfilled response ->
  ok response = true ->
  json response = Fulfilled listing ->
  prop "results" listing = VArr results ->
  forallb (fun entity => negb (is_nullish entity)) results = false ->
  exists message,
    run net (MemoryClient.deleteUsers params) this []
    = (Rejected (JsError "TypeError" message), this,
       [(users_request this, Fulfilled response)]).
Proof.
  intros (Hu & Ha & Hp & Hr) Hnet Hok Hjson Hres Hbad.
  unfold MemoryClient.deleteUsers. cbv zeta.
  rewrite run_bind, Hu, Ha, Hp, Hr, run_bind, run_users.
  cbn [length app]. rewrite Hnet. unfold settled_result. rewrite Hok, Hjson.
  unfold MemoryClient.entities_to_delete.
  assert (Hnn : is_nullish listing = false)
    by (destruct listing; try reflexivity; discriminate).
  rewrite Hnn, Hres.
  destruct (run_map_entities_null net this
              [(users_request this, Fulfilled response)] results Hbad) as [message Hm].
  exists message. now rewrite Hm.
Qed.

(** X21.  On the bulk path, a listing whose body has no array under
    [results], or has a [null] entry in it, makes [deleteUsers] fail with a
    [TypeError] straight after the listing request: nothing is deleted, not
    even the well-formed entries before the [null]. *)
Theorem deleteUsers_rejects_malformed_listing :
  forall net this params response listing,
    no_identifier params ->
    net 0%nat = Fulfilled response ->
    ok response = true ->
    json response = Fulfilled listing ->
    (forall results,
       prop "results" listing = VArr results ->
       forallb (fun entity => negb (is_nullish entity)) results = false) ->
    exists message,
      outcome_of (run net (MemoryClient.deleteUsers params) this [])
      = Rejected (JsError "TypeError" message)
      /\ requests (log_of (run net (MemoryClient.deleteUsers params) this []))
         = [users_request this].
Proof.
  intros net this params response listing (Hu & Ha & Hp & Hr) Hnet Hok Hjson Hbad.
  unfold MemoryClient.deleteUsers. cbv zeta.
  rewrite run_bind, Hu, Ha, Hp, Hr, run_bind, run_users.
  cbn [length app]. rewrite Hnet. unfold settled_result. rewrite Hok, Hjson.
  unfold MemoryClient.entities_to_delete.
  destruct (is_nullish listing); [eexists; split; reflexivity|].
  destruct (prop "results" listing) as [| | | | |results|] eqn:Hres;
    try (eexists; split; reflexivity).
  destruct (run_map_entities_null net this
              [(users_request this, Fulfilled response)] results (Hbad _ eq_refl))
    as [message Hm].
  exists message. rewrite Hm. split; reflexivity.
Qed.

Lemma deleteUsers_rejects_malformed_listing_witness :
  let listing := VObj [("results", VArr [VObj [("name", VStr "alice"); ("type", VStr "user")];
                                        VNull])] in
  exists message,
    outcome_of (run (mockFetch listing) (MemoryClient.deleteUsers []) test_client [])
    = Rejected (JsError "TypeError" message)
    /\ requests (log_of (run (mockFetch listing) (MemoryClient.deleteUsers []) test_client []))
       = [users_request test_client].
Proof.
  intros listing.
  apply (deleteUsers_rejects_malformed_listing (mockFetch listing) test_client []
           (mkResponse 200 "OK" "" (Fulfilled listing)) listing);
    try reflexivity.
  - repeat split.
  - intros results Hres. injection Hres as <-. reflexivity.
Defined.



Lemma Bounded_delete_each q toDelete :
  Bounded (length toDelete) (MemoryClient.delete_each q toDelete).
Proof.
  induction toDelete as [|entity rest IH]; simpl; repeat constructor.
  intros _. exact IH.
Qed.

(** X23.  [deleteUsers] never calls [fetch] more often than once plus the
    number of entries the listing returned: one request when an identifier
    is given, and on the bulk path the listing and at most one DELETE per
    listed entity. *)
Theorem deleteUsers_request_bound :
  forall net this params,
    (length (log_of (run net (MemoryClient.deleteUsers params) this []))
     <= 1 + listed_count (net 0%nat))%nat.
Proof.
  intros net this params.
  assert (Hone : forall (entity : MemoryClient.Target) (message : Value),
            length (log_of (run net
              (This (fun this0 =>
                 MemoryClient.delete_each (scope_query this0) [entity] ;;; Ret message))
              this [])) = 1%nat).
  { intros entity message.
    pose proof (run_delete_one net this entity message) as H.
    apply (f_equal (@length _)) in H. unfold requests in H.
    rewrite length_map in H. exact H. }
  destruct (truthy (obj_get "user_id" params)) eqn:Hu.
  { unfold MemoryClient.deleteUsers. cbv zeta. rewrite Hu. cbn [bind].
    match goal with |- (?l <= _)%nat => replace l with 1%nat by (symmetry; apply Hone) end.
    lia. }
  destruct (truthy (obj_get "agent_id" params)) eqn:Ha.
  { unfold MemoryClient.deleteUsers. cbv zeta. rewrite Hu, Ha. cbn [bind].
    match goal with |- (?l <= _)%nat => replace l with 1%nat by (symmetry; apply Hone) end.
    lia. }
  destruct (truthy (obj_get "app_id" params)) eqn:Hp.
  { unfold MemoryClient.deleteUsers. cbv zeta. rewrite Hu, Ha, Hp. cbn [bind].
    match goal with |- (?l <= _)%nat => replace l with 1%nat by (symmetry; apply Hone) end.
    lia. }
  destruct (truthy (obj_get "run_id" params)) eqn:Hr.
  { unfold MemoryClient.deleteUsers. cbv zeta. rewrite Hu, Ha, Hp, Hr. cbn [bind].
    match goal with |- (?l <= _)%nat => replace l with 1%nat by (symmetry; apply Hone) end.
    lia. }
  assert (Hnone : no_identifier params) by (repeat split; assumption).
  assert (Hfirst : forall e,
            settled_result this (host this ++ "/v1/entities/?" ++ scope_query this)
              (net 0%nat) = Rejected e ->
            length (log_of (run net (MemoryClient.deleteUsers params) this [])) = 1%nat).
  { intros e He. unfold MemoryClient.deleteUsers. cbv zeta.
    rewrite run_bind, Hu, Ha, Hp, Hr, run_bind, run_users. cbn [length].
    rewrite He. reflexivity. }
  unfold listed_count.
  destruct (net 0%nat) as [response|error] eqn:Hnet.
  2:{ rewrite (Hfirst (transport_error this
                 (host this ++ "/v1/entities/?" ++ scope_query this) error)); [lia|].
      unfold transport_error, timeout_error. simpl. now destruct (is_AbortError error). }
  destruct (ok response) eqn:Hok.
  2:{ rewrite (Hfirst (api_error_of response)); [lia|]. simpl. now rewrite Hok. }
  destruct (json response) as [listing|e] eqn:Hjson.
  2:{ rewrite (Hfirst e); [lia|]. simpl. now rewrite Hok, Hjson. }
  destruct (prop "results" listing) as [| | | | |results|] eqn:Hres;
    try (destruct (deleteUsers_listing_without_array net this params response listing
                     Hnone Hnet Hok Hjson) as [message Hm];
         [rewrite Hres; discriminate | rewrite Hm; simpl; lia]).
  destruct (forallb (fun entity => negb (is_nullish entity)) results) eqn:Hall.
  - rewrite (run_deleteUsers_bulk net this params response listing results
               Hnone Hnet Hok Hjson Hres Hall).
    rewrite <- (length_map MemoryClient.entity_target results).
    destruct (map MemoryClient.entity_target results) as [|entity rest];
      [simpl; lia|].
    match goal with
    | |- context [run net (MemoryClient.delete_each ?q ?l) ?t ?lg] =>
        pose proof (Bounded_run net _ _ (Bounded_delete_each q l) t lg) as Hb;
        destruct (run net (MemoryClient.delete_each q l) t lg)
          as [[[[]|e] this'] log']
    end; simpl in *; lia.
  - destruct (deleteUsers_listing_with_null net this params response listing results
                Hnone Hnet Hok Hjson Hres Hall) as [message Hm].
    rewrite Hm. simpl. lia.
Qed.

(* ------------------------------------------------------------------ *)
(** ** Query strings *)

Lemma string_forall_app p (a b : string) :
  string_forall p (a ++ b) = string_forall p a && string_forall p b.
Proof.
  induction a as [|c a IH]; simpl; [reflexivity|].
  now rewrite IH, andb_assoc.
Qed.

Lemma string_forall_weaken (p q : ascii -> bool) (s : string) :
  (forall c, p c = true -> q c = true) ->
  string_forall p s = true -> string_forall q s = true.
Proof.
  intros Hpq. induction s as [|c s IH]; simpl; [reflexivity|].
  intros H. apply andb_prop in H as [Hc Hs]. now rewrite (Hpq c Hc), IH.
Qed.

Lemma form_encode_char_encoded (c : ascii) :
  string_forall encoded_char (form_encode_char c) = true.
Proof.
  destruct c as [[] [] [] [] [] [] [] []]; reflexivity.
Qed.

Lemma form_encode_encoded (s : string) :
  string_forall encoded_char (form_encode s) = true.
Proof.
  induction s as [|c s IH]; simpl; [reflexivity|].
  now rewrite string_forall_app, form_encode_char_encoded, IH.
Qed.

Lemma encoded_char_query_char c : encoded_char c = true -> query_char c = true.
Proof.
  unfold encoded_char, query_char. intros ->. reflexivity.
Qed.

Lemma join_amp_query_chars (parts : list string) :
  (forall part, In part parts -> string_forall query_char part = true) ->
  string_forall query_char (join "&" parts) = true.
Proof.
  induction parts as [|part rest IH]; intros H; [reflexivity|].
  destruct rest as [|next rest]; [apply H; now left|].
  change (join "&" (part :: next :: rest)) with (part ++ "&" ++ join "&" (next :: rest)).
  rewrite !string_forall_app, (H part (or_introl eq_refl)), IH; [reflexivity|].
  intros p Hp. apply H. now right.
Qed.

Lemma count_char_app c (a b : string) :
  count_char c (a ++ b) = (count_char c a + count_char c b)%nat.
Proof.
  induction a as [|d a IH]; simpl; [reflexivity|]. rewrite IH. lia.
Qed.

Lemma count_char_encoded c (s : string) :
  encoded_char c = false ->
  string_forall encoded_char s = true -> count_char c s = 0%nat.
Proof.
  intros Hc. induction s as [|d s IH]; simpl; [reflexivity|].
  intros H. apply andb_prop in H as [Hd Hs].
  destruct (Ascii.eqb_spec c d) as [->|ne]; [congruence|]. now rewrite IH.
Qed.

Lemma count_equals_in_query (pairs : list (string * string)) :
  count_char "="%char (URLSearchParams_toString pairs) = length pairs.
Proof.
  unfold URLSearchParams_toString.
  assert (Hpair : forall kv : string * string,
            count_char "="%char (form_encode (fst kv) ++ "=" ++ form_encode (snd kv))
            = 1%nat).
  { intros kv. rewrite !count_char_app.
    rewrite (count_char_encoded "="%char (form_encode (fst kv)) eq_refl
               (form_encode_encoded _)).
    rewrite (count_char_encoded "="%char (form_encode (snd kv)) eq_refl
               (form_encode_encoded _)).
    reflexivity. }
  induction pairs as [|kv rest IH]; [reflexivity|].
  destruct rest as [|next rest]; [apply Hpair|].
  change (join "&" (map (fun kv0 => form_encode (fst kv0) ++ "=" ++ form_encode (snd kv0))
                      (kv :: next :: rest)))
    with ((form_encode (fst kv) ++ "=" ++ form_encode (snd kv)) ++ "&"
          ++ join "&" (map (fun kv0 => form_encode (fst kv0) ++ "=" ++ form_encode (snd kv0))
                         (next :: rest))).
  rewrite (count_char_app _ (form_encode (fst kv) ++ "=" ++ form_encode (snd kv))).
  rewrite Hpair, (count_char_app _ "&"), IH. reflexivity.
Qed.

(** X24.  Whatever the options hold, the query string built from them
    consists of unreserved characters, [+] and [%] escapes, and the [&] and
    [=] that separate the pairs, and it has exactly one [=] per option sent:
    each key and each value is encoded on its own, so no character of an
    option can end the query, start a fragment or open another parameter. *)
Theorem query_strings_are_encoded :
  forall options,
    let query := URLSearchParams_toString (MemoryClient.prepareParams options) in
    string_forall query_char query = true
    /\ count_char "="%char query = length (MemoryClient.prepareParams options).
Proof.
  intros options query. subst query. split.
  - unfold URLSearchParams_toString. apply join_amp_query_chars.
    intros part Hin. apply in_map_iff in Hin as ([key value] & <- & _).
    rewrite !string_forall_app. cbn [fst snd].
    rewrite (string_forall_weaken _ _ _ encoded_char_query_char (form_encode_encoded key)).
    rewrite (string_forall_weaken _ _ _ encoded_char_query_char (form_encode_encoded value)).
    reflexivity.
  - apply count_equals_in_query.
Qed.

(* ------------------------------------------------------------------ *)
(** ** Where an APIError comes from *)

Lemma ThrowsNoAPIError_bind {A B : Type} (p : Prog A) (f : A -> Prog B) :
  ThrowsNoAPIError p -> (forall a, ThrowsNoAPIError (f a)) -> ThrowsNoAPIError (bind p f).
Proof.
  intros Hp Hf. induction Hp; simpl; auto; constructor; auto.
Qed.

Lemma ThrowsNoAPIError_map_entities results :
  ThrowsNoAPIError (MemoryClient.map_entities results).
Proof.
  induction results as [|entity rest IH]; simpl; [constructor|].
  destruct (is_nullish entity); [now constructor|].
  apply ThrowsNoAPIError_bind; [exact IH | intros; constructor].
Qed.

Lemma ThrowsNoAPIError_delete_each q toDelete :
  ThrowsNoAPIError (MemoryClient.delete_each q toDelete).
Proof.
  induction toDelete as [|entity rest IH]; simpl; repeat constructor.
  intros _. exact IH.
Qed.

Lemma ThrowsNoAPIError_deleteUsers params :
  ThrowsNoAPIError (MemoryClient.deleteUsers params).
Proof.
  unfold MemoryClient.deleteUsers. cbv zeta.
  apply ThrowsNoAPIError_bind.
  - repeat match goal with |- _ (if ?c then _ else _) => destruct c end;
      try apply ThrowsNoAPIError_Ret.
    apply ThrowsNoAPIError_bind.
    + unfold MemoryClient.users. walk_body.
    + intros entities. unfold MemoryClient.entities_to_delete.
      destruct (is_nullish entities); [now constructor|].
      destruct (prop "results" entities); try (now constructor).
      apply ThrowsNoAPIError_map_entities.
  - intros [|entity rest]; [now constructor|].
    constructor. intros this. cbv zeta.
    apply ThrowsNoAPIError_bind;
      [apply ThrowsNoAPIError_delete_each | intros; constructor].
Qed.

Lemma ThrowsNoAPIError_perform op : op <> Ping -> ThrowsNoAPIError (perform op).
Proof.
  intros Hop. destruct op; try congruence;
    try (apply ThrowsNoAPIError_deleteUsers);
    unfold_method; walk_body.
Qed.

Lemma run_api_error_origin {A : Type} net (p : Prog A) :
  platform_errors_only net ->
  ThrowsNoAPIError p ->
  forall this log code message,
    outcome_of (run net p this log) = Rejected (APIError code message) ->
    exists request response,
      In (request, Fulfilled response) (log_of (run net p this log))
      /\ ok response = false
      /\ code = status response.
Proof.
  intros Hplat Hp.
  induction Hp as [a|e He|k Hk IH|f k Hk IH|url options k Hk IH];
    intros this log code message Hout; simpl in *.
  - discriminate.
  - injection Hout as ->. discriminate.
  - now apply (IH this this log code message).
  - now apply (IH (f this) log code message).
  - rewrite fetchWithErrorHandling_settles in *.
    pose proof (Hplat (length log)) as Hn.
    destruct (net (length log)) as [response|err]; simpl in *.
    + destruct (ok response) eqn:Hok.
      * destruct (json response) as [v|e].
        -- now apply (IH v this _ code message).
        -- simpl in Hout. injection Hout as ->. discriminate.
      * simpl in Hout. unfold api_error_of, new_APIError in Hout.
        injection Hout as <- _.
        eexists _, response. split; [|split; [exact Hok | reflexivity]].
        simpl. apply in_or_app. right. left. reflexivity.
    + destruct (is_AbortError err); simpl in Hout.
      * discriminate.
      * injection Hout as ->. discriminate.
Qed.

(** X25.  For every operation other than [ping], over a platform that does
    not itself reject with an [APIError]: when the call is rejected with an
    [APIError], its [status] is the status of a response the call really
    received, and that status was not a success status. *)
Theorem api_error_status_is_a_real_status :
  forall net op this code message,
    platform_errors_only net ->
    op <> Ping ->
    outcome_of (run net (perform op) this []) = Rejected (APIError code message) ->
    exists request response,
      In (request, Fulfilled response) (log_of (run net (perform op) this []))
      /\ ok response = false
      /\ code = status response.
Proof.
  intros net op this code message Hplat Hop Hout.
  exact (run_api_error_origin net (perform op) Hplat (ThrowsNoAPIError_perform op Hop)
           this [] code message Hout).
Qed.

Lemma api_error_status_is_a_real_status_witness :
  exists request response,
    In (request, Fulfilled response)
      (log_of (run (mockFetchError "Unauthorized" 401) (perform (Get "mem_123"))
                 test_client []))
    /\ ok response = false
    /\ 401 = status response.
Proof.
  apply (api_error_status_is_a_real_status (mockFetchError "Unauthorized" 401)
           (Get "mem_123") test_client 401
           "API request failed with status 401: Unauthorized").
  - intros n. reflexivity.
  - discriminate.
  - reflexivity.
Defined.

(* ------------------------------------------------------------------ *)
(** ** Batch updates *)

(** X26.  [batchUpdate] reads the id of each entry from its [memoryId]
    property and nothing else: entries that carry their id under another
    key, such as [memory_id], are sent with their [text] only, without any
    id. *)
Theorem batchUpdate_reads_memoryId_only :
  forall net this memories,
    (forall memory, In memory memories -> obj_find "memoryId" memory = None) ->
    requests (log_of (run net (MemoryClient.batchUpdate memories) this []))
    = [request_of this (host this ++ "/v1/batch/") "PUT"
         (JSON_stringify
            (VObj [("memories",
                    VArr (map (fun memory => VObj [("text", obj_get "text" memory)])
                            memories))]))].
Proof.
  intros net this memories Hno.
  unfold MemoryClient.batchUpdate. cbv zeta. rewrite run_This, run_Await_Ret.
  assert (Hmap : map json_ser
                   (map (fun memory =>
                           VObj [("memory_id", obj_get "memoryId" memory);
                                 ("text", obj_get "text" memory)]) memories)
                 = map json_ser
                     (map (fun memory => VObj [("text", obj_get "text" memory)]) memories)).
  { induction memories as [|memory rest IH]; [reflexivity|].
    cbn [map]. rewrite IH by (intros m Hm; apply Hno; now right). f_equal.
    unfold obj_get at 1. rewrite (Hno memory (or_introl eq_refl)). reflexivity. }
  unfold requests, log_of, request_of, JSON_stringify.
  cbn [snd map app fst init_method init_body init init_headers json_ser is_undefined].
  now rewrite Hmap.
Qed.

Lemma batchUpdate_reads_memoryId_only_witness :
  requests (log_of (run (mockFetch VNull)
                      (MemoryClient.batchUpdate
                         [[("memory_id", VStr "id-1"); ("text", VStr "updated text")]])
                      test_client []))
  = [request_of test_client "https://api.mem0.ai/v1/batch/" "PUT"
       (JSON_stringify
          (VObj [("memories", VArr [VObj [("text", VStr "updated text")]])]))].
Proof.
  apply (batchUpdate_reads_memoryId_only (mockFetch VNull) test_client
           [[("memory_id", VStr "id-1"); ("text", VStr "updated text")]]).
  intros memory [<-|[]]. reflexivity.
Defined.

(* ------------------------------------------------------------------ *)
(** ** Webhooks *)

(** X27.  [updateWebhook] addresses the webhook by its [webhookId] and always
    sends a [projectId] in the body: the payload's own when it is truthy,
    the client's otherwise; the other fields of a payload with distinct keys
    are sent as given. *)
Theorem updateWebhook_fills_in_projectId :
  forall net this webhook,
    NoDup (map fst webhook) ->
    exists payload,
      requests (log_of (run net (MemoryClient.updateWebhook webhook) this []))
      = [request_of this
           (host this ++ "/api/v1/webhooks/" ++ ToString (obj_get "webhookId" webhook) ++ "/")
           "PUT" (JSON_stringify (VObj payload))]
      /\ obj_find "projectId" payload
         = Some (if truthy (obj_get "projectId" webhook)
                 then obj_get "projectId" webhook else projectId this)
      /\ (forall k, k <> "projectId" -> obj_find k payload = obj_find k webhook).
Proof.
  intros net this webhook Hnd.
  unfold MemoryClient.updateWebhook. rewrite run_This. cbv zeta. rewrite run_Await_Ret.
  eexists. split; [reflexivity|]. split.
  - apply obj_find_set_same.
  - intros k Hk. rewrite obj_find_set_other by congruence.
    rewrite obj_find_spread by exact Hnd. now destruct (obj_find k webhook).
Qed.

Lemma updateWebhook_fills_in_projectId_witness :
  let this := new_MemoryClient "test-key" None VUndefined VUndefined
                (VStr "org_123") (VStr "proj_456") in
  exists payload,
    requests (log_of (run (mockFetch VNull)
                        (MemoryClient.updateWebhook
                           [("webhookId", VStr "wh_123"); ("name", VStr "Updated Name")])
                        this []))
    = [request_of this "https://api.mem0.ai/api/v1/webhooks/wh_123/" "PUT"
         (JSON_stringify (VObj payload))]
    /\ obj_find "projectId" payload = Some (VStr "proj_456").
Proof.
  intros this.
  destruct (updateWebhook_fills_in_projectId (mockFetch VNull) this
              [("webhookId", VStr "wh_123"); ("name", VStr "Updated Name")])
    as (payload & Hreq & Hproj & _).
  - repeat constructor; simpl; intuition discriminate.
  - exists payload. split; [exact Hreq | exact Hproj].
Defined.

(* ------------------------------------------------------------------ *)
(** ** The scope on the wire *)

Lemma is_given_nullish kv : is_given kv = negb (is_nullish (snd kv)).
Proof. unfold is_given. now destruct (snd kv). Qed.

Lemma obj_find_prepareParams k (options : Obj Value) :
  NoDup (map fst options) ->
  obj_find k (MemoryClient.prepareParams options)
  = match obj_find k options with
    | Some v => if is_nullish v then None else Some (ToString v)
    | None => None
    end.
Proof.
  intros Hnd. unfold MemoryClient.prepareParams.
  rewrite (prepareParams_fold options [] (fun _ _ => eq_refl) Hnd). cbn [app].
  induction options as [|[k1 v1] options IH]; [reflexivity|].
  inversion Hnd as [|? ? Hnin Hnd']; subst. cbn [filter].
  rewrite is_given_nullish. cbn [snd fst].
  destruct (is_nullish v1) eqn:Hv; cbn [negb map obj_find fst snd].
  - rewrite (IH Hnd'). destruct (String.eqb_spec k k1) as [->|ne]; [|reflexivity].
    apply obj_find_none_iff in Hnin. now rewrite Hnin, Hv.
  - destruct (String.eqb k k1); [now rewrite Hv | exact (IH Hnd')].
Qed.

Lemma merged_query_carries_id_pair this (options : Obj Value) :
  is_nullish (organizationId this) = false ->
  is_nullish (projectId this) = false ->
  carries_id_pair this (MemoryClient.addOrgProjectToOptions this options)
  /\ query_carries_id_pair this
       (MemoryClient.prepareParams (MemoryClient.addOrgProjectToOptions this options)).
Proof.
  intros Ho Hp.
  assert (Hm : carries_id_pair this (MemoryClient.addOrgProjectToOptions this options)).
  { apply merged_options_carry_id_pair; intros E; rewrite E in *; discriminate. }
  split; [exact Hm|].
  destruct Hm as (H1 & H2 & H3 & H4).
  unfold query_carries_id_pair.
  rewrite !obj_find_prepareParams by apply NoDup_addOrgProject.
  now rewrite H1, H2, H3, H4, Ho, Hp.
Qed.

Lemma spread_carries_id_pair this (first : Obj Value) (opts : Obj Value) :
  NoDup (map fst opts) ->
  carries_id_pair this opts ->
  obj_find "org_name" first = None ->
  obj_find "project_name" first = None ->
  carries_id_pair this (obj_spread first opts).
Proof.
  intros Hnd (H1 & H2 & H3 & H4) Hf1 Hf2. unfold carries_id_pair.
  rewrite !obj_find_spread by exact Hnd. now rewrite H1, H2, H3, H4.
Qed.

Lemma SendsOnly_bind {A B : Type} P this (p : Prog A) (f : A -> Prog B) :
  SendsOnly P this p -> (forall a, SendsOnly P this (f a)) -> SendsOnly P this (bind p f).
Proof.
  intros Hp Hf. induction Hp; simpl; auto; constructor; auto.
Qed.

Lemma SendsOnly_run {A : Type} P net this (p : Prog A) :
  SendsOnly P this p ->
  forall log,
    (forall request, In request (requests log) -> P request) ->
    forall request, In request (requests (log_of (run net p this log))) -> P request.
Proof.
  induction 1 as [a|e|k Hk IH|url options k HP Hk IH]; intros log Hlog request Hin.
  - now apply Hlog.
  - now apply Hlog.
  - now apply (IH log Hlog).
  - cbn [run] in Hin. rewrite fetchWithErrorHandling_settles in Hin.
    set (rq := mkRequest url _ _ _) in *.
    assert (Hlog' : forall r, In r (requests (log ++ [(rq, net (length log))])%list) -> P r).
    { intros r Hr. unfold requests in Hr. rewrite map_app in Hr.
      apply in_app_or in Hr as [Hr|[<-|[]]]; [now apply Hlog | exact HP]. }
    destruct (settled_result this url (net (length log))) as [v|e].
    + now apply (IH v _ Hlog').
    + now apply Hlog'.
Qed.

Lemma SendsOnly_map_entities P this results :
  SendsOnly P this (MemoryClient.map_entities results).
Proof.
  induction results as [|entity rest IH]; simpl; [constructor|].
  destruct (is_nullish entity); [constructor|].
  apply SendsOnly_bind; [exact IH | intros; constructor].
Qed.

(** Every request of [deleteUsers] goes to an entities path followed by the
    client's scope as its query. *)
Lemma SendsOnly_deleteUsers this params :
  SendsOnly
    (fun request =>
       req_body request = None
       /\ exists path,
            entities_path path
            /\ req_url request = host this ++ path ++ "?" ++ scope_query this)
    this (MemoryClient.deleteUsers params).
Proof.
  unfold MemoryClient.deleteUsers. cbv zeta.
  apply SendsOnly_bind.
  - repeat match goal with |- _ (if ?c then _ else _) => destruct c end;
      try apply SendsOnly_Ret.
    apply SendsOnly_bind.
    + unfold MemoryClient.users. constructor. cbv zeta. constructor.
      * split; [reflexivity|]. exists "/v1/entities/". split; [now left | reflexivity].
      * intros v. constructor.
    + intros entities. unfold MemoryClient.entities_to_delete.
      destruct (is_nullish entities); [constructor|].
      destruct (prop "results" entities); try constructor.
      apply SendsOnly_map_entities.
  - intros [|entity rest]; [constructor|].
    constructor. cbv zeta. fold (scope_query this).
    apply SendsOnly_bind; [|intros; constructor].
    generalize (entity :: rest). intros toDelete.
    induction toDelete as [|target others IH]; simpl; [constructor|].
    constructor. constructor; [|intros _; exact IH].
    split; [reflexivity|].
    exists ("/v2/entities/" ++ ToString (MemoryClient.target_type target) ++ "/"
              ++ ToString (MemoryClient.target_name target) ++ "/").
    split; [right; now exists target|].
    cbn [req_url]. unfold MemoryClient.entity_url.
    rewrite !append_assoc. reflexivity.
Qed.

(** C2.  With both ids on the client (neither [null] nor [undefined]; the
    constructor stores [null] for an absent id), however the name pair is
    configured and whatever the caller's options are, every request that
    carries merged options carries [org_id] and [project_id] with the
    client's values and neither [org_name] nor [project_name]: in the JSON
    body of [add], [search] and [getAll] (v2), in the query string of
    [getAll] (v1), [deleteAll] and [users], and in the query string of every
    request of [deleteUsers]. *)
Theorem id_pair_wins_on_the_wire :
  forall net this,
    is_nullish (organizationId this) = false ->
    is_nullish (projectId this) = false ->
    (forall messages options,
       exists payload,
         requests (log_of (run net (MemoryClient.add messages options) this []))
         = [request_of this (host this ++ "/v1/memories/") "POST"
              (JSON_stringify (VObj payload))]
         /\ carries_id_pair this payload)
    /\ (forall query options,
          exists endpoint payload,
            requests (log_of (run net (MemoryClient.search query options) this []))
            = [request_of this (host this ++ endpoint) "POST"
                 (JSON_stringify (VObj payload))]
            /\ carries_id_pair this payload)
    /\ (forall options,
          exists payload params pagination,
            requests (log_of (run net (MemoryClient.getAll options) this []))
            = [ if is_string "v2" (obj_get "api_version" options)
                then request_of this
                       (host this ++ "/v2/memories/"
                          ++ (if truthy (VStr pagination) then "?" ++ pagination else ""))
                       "POST" (JSON_stringify (VObj payload))
                else request_of this
                       (host this ++ "/v1/memories/?" ++ URLSearchParams_toString params
                          ++ (if truthy (VStr pagination) then "&" ++ pagination else ""))
                       "GET" None ]
            /\ pagination = MemoryClient.paginationParams (obj_get "page" options)
                              (obj_get "page_size" options)
            /\ carries_id_pair this payload
            /\ query_carries_id_pair this params)
    /\ (forall options,
          exists params,
            requests (log_of (run net (MemoryClient.deleteAll options) this []))
            = [request_of this
                 (host this ++ "/v1/memories/?" ++ URLSearchParams_toString params)
                 "DELETE" None]
            /\ query_carries_id_pair this params)
    /\ (exists params,
          requests (log_of (run net MemoryClient.users this []))
          = [request_of this
               (host this ++ "/v1/entities/?" ++ URLSearchParams_toString params)
               "GET" None]
          /\ query_carries_id_pair this params)
    /\ (forall ids,
          exists params,
            query_carries_id_pair this params
            /\ forall request,
                 In request
                   (requests (log_of (run net (MemoryClient.deleteUsers ids) this []))) ->
                 req_body request = None
                 /\ exists path,
                      entities_path path
                      /\ req_url request
                         = host this ++ path ++ "?" ++ URLSearchParams_toString params).
Proof.
  intros net this Ho Hp.
  assert (Hscope : forall options,
            carries_id_pair this (MemoryClient.addOrgProjectToOptions this options)
            /\ query_carries_id_pair this
                 (MemoryClient.prepareParams
                    (MemoryClient.addOrgProjectToOptions this options)))
    by (intros; now apply merged_query_carries_id_pair).
  split; [|split; [|split; [|split; [|split]]]].
  - intros messages options.
    unfold MemoryClient.add. rewrite run_This. cbv zeta. rewrite run_Await_Ret.
    eexists. split; [reflexivity|].
    destruct (Hscope options) as [(H1 & H2 & H3 & H4) _].
    unfold MemoryClient.preparePayload.
    apply spread_carries_id_pair; try reflexivity.
    + destruct (truthy _); [apply NoDup_obj_set|]; apply NoDup_addOrgProject.
    + destruct (truthy _); [|now repeat split].
      unfold carries_id_pair. rewrite !obj_find_set_other by discriminate.
      now repeat split.
  - intros query options.
    unfold MemoryClient.search. rewrite run_This. cbv zeta. rewrite run_Await_Ret.
    do 2 eexists. split; [reflexivity|].
    apply spread_carries_id_pair; try reflexivity;
      [apply NoDup_addOrgProject | apply Hscope].
  - intros options.
    pose proof (getAll_request net this options) as Hget. cbv zeta in Hget.
    do 3 eexists. split; [exact Hget|]. split; [reflexivity|]. apply Hscope.
  - intros options.
    unfold MemoryClient.deleteAll. rewrite run_This. cbv zeta. rewrite run_Await_Ret.
    eexists. split; [reflexivity | apply Hscope].
  - rewrite run_users. eexists. split; [reflexivity | apply Hscope].
  - intros ids. eexists. split; [apply (Hscope [])|].
    intros request Hin.
    exact (SendsOnly_run _ net this _ (SendsOnly_deleteUsers this ids) []
             (fun r (H : In r (requests [])) => match H with end) request Hin).
Qed.

Lemma id_pair_wins_on_the_wire_witness :
  (exists payload,
     requests (log_of (run (mockFetch (VArr []))
                         (MemoryClient.add [] [("user_id", VStr "alice");
                                               ("org_name", VStr "other")])
                         scoped_client []))
     = [request_of scoped_client "https://api.mem0.ai/v1/memories/" "POST"
          (JSON_stringify (VObj payload))]
     /\ carries_id_pair scoped_client payload)
  /\ (exists params,
        requests (log_of (run (mockFetch (VArr []))
                            (MemoryClient.deleteAll [("user_id", VStr "alice")])
                            scoped_client []))
        = [request_of scoped_client
             ("https://api.mem0.ai/v1/memories/?" ++ URLSearchParams_toString params)
             "DELETE" None]
        /\ query_carries_id_pair scoped_client params).
Proof.
  destruct (id_pair_wins_on_the_wire (mockFetch (VArr [])) scoped_client
              eq_refl eq_refl) as (Hadd & _ & _ & Hdel & _).
  split.
  - exact (Hadd [] [("user_id", VStr "alice"); ("org_name", VStr "other")]).
  - exact (Hdel [("user_id", VStr "alice")]).
Defined.

(* ------------------------------------------------------------------ *)
(** ** Identifiers that are set but empty *)

(** Against C9 as stated: an [organizationId] configured as the empty string
    is set (it is stored as given, not as [null], and is sent as [org_id]
    with every scoped request), yet a successful [ping] replaces it with the
    id of the response. *)
Lemma ping_overwrites_blank_id_counterexample :
  organizationId blank_scope_client = VStr ""
  /\ obj_find "org_id" (MemoryClient.addOrgProjectToOptions blank_scope_client [])
     = Some (VStr "")
  /\ organizationId (client_of (run learning_network MemoryClient.ping
                                  blank_scope_client []))
     = VStr "org_1".
Proof. repeat split. Qed.

(** Against C10 as stated: with [user_id] given as the empty string and
    [agent_id] given, the one DELETE targets the agent, not the user; with
    two identifiers both given as empty strings the call takes the bulk path
    and issues a DELETE for every listed entity. *)
Lemma deleteUsers_blank_identifier_counterexample :
  let params := [("user_id", VStr ""); ("agent_id", VStr "bot")] in
  let blanks := [("user_id", VStr ""); ("agent_id", VStr "")] in
  obj_has "user_id" params = true
  /\ obj_has "agent_id" params = true
  /\ map (fun r => (req_method r, req_url r))
       (requests (log_of (run (mockFetch (VObj [])) (MemoryClient.deleteUsers params)
                            test_client [])))
     = [("DELETE", "https://api.mem0.ai/v2/entities/agent/bot/?")]
  /\ map (fun r => (req_method r, req_url r))
       (requests (log_of (run (mockFetch two_entities) (MemoryClient.deleteUsers blanks)
                            test_client [])))
     = [("GET", "https://api.mem0.ai/v1/entities/?");
        ("DELETE", "https://api.mem0.ai/v2/entities/user/alice/?");
        ("DELETE", "https://api.mem0.ai/v2/entities/agent/bot/?")].
Proof. vm_compute. repeat split. Qed.
